(** * Verification of the TTS text filter, the SiliconFlow backend and the RAG agent

    Shallow embedding of
    - [src/open_llm_vtuber/tts/tts_interface.py]  (class [TTSInterface]),
    - [src/open_llm_vtuber/tts/siliconflow_tts.py] (class [SiliconFlowTTS]),
    - [src/open_llm_vtuber/agent/agents/rag_agent.py] (class [RAGAgent]).

    Python [str] values are sequences of Unicode code points; a code point is
    an [N].  Effects (logging, file system, HTTP) are recorded in a trace and
    their outcomes are read from a [world]; exceptions are explicit. *)

From Stdlib Require Import List NArith ZArith Bool Lia Ascii String.
From Stdlib Require Import DecimalString.
Import ListNotations.

(** ** Python strings *)

Module Py.

Local Open Scope N_scope.

Definition char := N.
Definition str := list char.

(** An ASCII literal as a Python string. *)
Definition lit (s : string) : str := map N_of_ascii (list_ascii_of_string s).

Definition str_eqb (a b : str) : bool :=
  if list_eq_dec N.eq_dec a b then true else false.

(** [Py_UNICODE_ISSPACE]: the characters that [str.strip()], [str.isspace()]
    and the regular expression class [\s] (hence the complement [\S]) treat
    as white space on [str] patterns. *)
Definition isspace (c : char) : bool :=
  ((9 <=? c) && (c <=? 13)) || ((28 <=? c) && (c <=? 32))
  || (c =? 133) || (c =? 160) || (c =? 5760)
  || ((8192 <=? c) && (c <=? 8202))
  || (c =? 8232) || (c =? 8233) || (c =? 8239) || (c =? 8287)
  || (c =? 12288).

Definition nonspace (c : char) : bool := negb (isspace c).

Fixpoint lstrip (s : str) : str :=
  match s with
  | c :: s' => if isspace c then lstrip s' else s
  | [] => []
  end.

(** [s.strip()] *)
Definition strip (s : str) : str := rev (lstrip (rev (lstrip s))).

(** Truth value of a string: [not s] holds exactly for the empty string. *)
Definition falsy (s : str) : bool :=
  match s with [] => true | _ => false end.

(** [s.startswith(p)], returning the rest of [s] after [p]. *)
Fixpoint strip_prefix (p s : str) : option str :=
  match p, s with
  | [], _ => Some s
  | a :: p', b :: s' => if a =? b then strip_prefix p' s' else None
  | _ :: _, [] => None
  end.

(** Length of the longest prefix of [s] whose characters satisfy [f]:
    what a greedy [\S*] consumes. *)
Fixpoint span_len (f : char -> bool) (s : str) : nat :=
  match s with
  | c :: s' => if f c then S (span_len f s') else O
  | [] => O
  end.

(** Deleting every leftmost, non-overlapping match of a pattern, scanning
    left to right: [re.sub(pattern, '', s)] and [s.replace(old, '')].
    [m t] is the length of the match of the pattern at the head of [t], if
    there is one; [skip] counts the characters of the current match that
    are still to be dropped.  After a match the scan resumes right behind
    it, so text that a deletion brings together is never scanned again. *)
Fixpoint delete_from (m : str -> option nat) (skip : nat) (s : str) : str :=
  match s with
  | [] => []
  | c :: s' =>
      match skip with
      | S k => delete_from m k s'
      | O =>
          match m s with
          | Some (S k) => delete_from m k s'
          | _ => c :: delete_from m O s'
          end
      end
  end.

Definition delete_matches (m : str -> option nat) (s : str) : str :=
  delete_from m O s.

(** The match of the literal [old] at the head of a string. *)
Definition literal_match (old : str) (s : str) : option nat :=
  match strip_prefix old s with
  | Some _ => Some (List.length old)
  | None => None
  end.

(** [s.replace(old, '')] for a non-empty [old]. *)
Definition replace_empty (old : str) (s : str) : str :=
  delete_matches (literal_match old) s.

(** The regular expression [://\S+] matched at the head of [r]. *)
Definition match_colon_slashes (r : str) : option nat :=
  match strip_prefix (lit "://") r with
  | Some r' =>
      match span_len nonspace r' with
      | O => None
      | S n => Some (3 + S n)%nat
      end
  | None => None
  end.

(** The regular expression [s?://\S+] matched at the head of [r]: [s?] is
    greedy, so the branch that takes the [s] is tried first and the branch
    without it on backtracking. *)
Definition match_optional_s (r : str) : option nat :=
  match strip_prefix (lit "s") r with
  | Some r1 =>
      match match_colon_slashes r1 with
      | Some n => Some (1 + n)%nat
      | None => match_colon_slashes r
      end
  | None => match_colon_slashes r
  end.

(** The regular expression [https?://\S+] matched at the head of [s]. *)
Definition url_match (s : str) : option nat :=
  match strip_prefix (lit "http") s with
  | Some r => option_map (Nat.add 4%nat) (match_optional_s r)
  | None => None
  end.

(** [re.sub(r'https?://\S+', '', s)] *)
Definition re_sub_url (s : str) : str := delete_matches url_match s.

(** ** Exceptions *)

(** The exception classes the modelled code can meet.  [BaseExceptionOnly]
    stands for the classes that do not derive from [Exception]
    ([KeyboardInterrupt], [SystemExit], ...), which [except Exception]
    does not catch. *)
Inductive exn : Type :=
| TypeError
| RequestException (msg : string)
| HTTPError (status_code : Z)
| OSError (msg : string)
| OtherException (name : string)
| BaseExceptionOnly (name : string).

Definition is_Exception (e : exn) : bool :=
  match e with
  | BaseExceptionOnly _ => false
  | _ => true
  end.

Inductive result (A : Type) : Type :=
| Return (a : A)
| Raise (e : exn).
Arguments Return {A} a.
Arguments Raise {A} e.

End Py.
Import Py.

(** ** Effects: the outside world, traces and the effect monad *)

Module Eff.

Inductive log_level : Type := DEBUG | INFO | WARNING | ERROR.

(** The JSON body of the synthesis request ([payload] in
    [SiliconFlowTTS.generate_audio]); configuration values that the code only
    passes on are kept as [pyval]. *)
Inductive pyval : Type :=
| PyNone
| PyBool (b : bool)
| PyInt (z : Z)
| PyStr (s : str)
| PyFloat (repr : string).

Record payload : Type := {
  p_input : str;
  p_response_format : str;
  p_sample_rate : pyval;
  p_stream : pyval;
  p_speed : pyval;
  p_gain : pyval;
  p_model : pyval;
  p_voice : pyval
}.

(** What the code reads of a [requests.Response]. *)
Record response : Type := {
  status_code : Z;
  content : list N
}.

(** One entry per effect the code performs, with what came of it:
    a [logger] call; [asyncio.to_thread(self.generate_audio, text,
    file_name_no_ext)]; [os.makedirs]; [requests.request]; [open(path, "wb")]
    and [f.write(data)]. *)
Inductive event : Type :=
| Log (level : log_level)
| ToThread (text : option str) (file_name_no_ext : option str)
| Makedirs (path : str) (outcome : result unit)
| HttpRequest (method : string) (url : str) (json : payload)
    (headers : list (string * str)) (outcome : result response)
| OpenWb (path : str) (outcome : result unit)
| Write (path : str) (data : list N) (outcome : result unit).

(** A langchain [Document] and a [Chroma] vector store, as far as the code
    uses them: the truth value of the store object and the outcome of
    [similarity_search(query, k=k)]. *)
Record Document : Type := {
  page_content : str
}.

Record Chroma : Type := {
  truth : bool;
  similarity_search : str -> Z -> result (list Document)
}.

(** The outcomes of the library calls: [os.path.exists], [os.makedirs],
    [os.path.join], [requests.request], [open(path, "wb")] and [f.write];
    the constructors [HuggingFaceEmbeddings(...)] and [Chroma(...)]; and
    [datetime.datetime.now()], as its [strftime('%Y年%m月%d日')] text and its
    [weekday()]. *)
Record world : Type := {
  huggingface_embeddings : result unit;
  chroma_open : str -> result Chroma;
  datetime_now : str * nat;
  os_path_exists : str -> bool;
  os_makedirs : str -> result unit;
  os_path_join : str -> str -> str;
  requests_request :
    string -> str -> payload -> list (string * str) -> result response;
  open_wb : str -> result unit;
  file_write : str -> list N -> result unit
}.

(** A computation reads the world, appends to the trace and returns or
    raises. *)
Definition M (A : Type) : Type := world -> list event * result A.

Definition ret {A} (a : A) : M A := fun _ => ([], Return a).

Definition raise {A} (e : exn) : M A := fun _ => ([], Raise e).

Definition bind {A B} (m : M A) (f : A -> M B) : M B :=
  fun w =>
    match m w with
    | (t1, Return a) => let '(t2, r) := f a w in (t1 ++ t2, r)
    | (t1, Raise e) => (t1, Raise e)
    end.

(** [try: m  except Exception as e: h e] *)
Definition try_except_Exception {A} (m : M A) (h : exn -> M A) : M A :=
  fun w =>
    match m w with
    | (t1, Raise e) =>
        if is_Exception e
        then let '(t2, r) := h e w in (t1 ++ t2, r)
        else (t1, Raise e)
    | done => done
    end.

Definition emit (ev : event) : M unit := fun _ => ([ev], Return tt).

(** An effect whose outcome is logged and then returned or raised. *)
Definition perform {A} (ask : world -> result A) (ev : result A -> event)
  : M A :=
  fun w => ([ev (ask w)], ask w).

Definition ask {A} (f : world -> A) : M A := fun w => ([], Return (f w)).

(** A library call that leaves no entry in the trace. *)
Definition call {A} (f : world -> result A) : M A := fun w => ([], f w).

Definition logger (level : log_level) : M unit := emit (Log level).

End Eff.
Import Eff.

Declare Scope eff_scope.
Delimit Scope eff_scope with eff.
Notation "x <- m ;; k" := (bind m (fun x => k))
  (at level 61, m at next level, right associativity) : eff_scope.
Notation "m ;; k" := (bind m (fun _ => k))
  (at level 61, right associativity) : eff_scope.

(** ** [tts_interface.py]: class [TTSInterface] *)

Module TTSInterface.

Local Open Scope N_scope.

(** A TTS engine object: the fields its concrete class sets in [__init__]
    and the attribute [_in_brackets] that [_filter_stream_text] creates on
    first use ([None]: [hasattr(self, "_in_brackets")] is false). *)
Record TTS (C : Type) : Type := {
  conf : C;
  _in_brackets : option bool
}.
Arguments Build_TTS {C} _ _.
Arguments conf {C} _.
Arguments _in_brackets {C} _.

Definition new {C} (c : C) : TTS C := {| conf := c; _in_brackets := None |}.

(** [char in ('(', '（')] and [char in (')', '）')] *)
Definition is_open (c : char) : bool := (c =? 40) || (c =? 65288).
Definition is_close (c : char) : bool := (c =? 41) || (c =? 65289).

(** The variables of the scanning loop. *)
Record scan : Type := {
  in_brackets : bool;
  filtered_chars : list char
}.

(** The body of [for char in text]. *)
Definition scan_char (st : scan) (c : char) : scan :=
  if is_open c then
    {| in_brackets := true; filtered_chars := filtered_chars st |}
  else if is_close c then
    {| in_brackets := false; filtered_chars := filtered_chars st |}
  else if negb (in_brackets st) then
    {| in_brackets := in_brackets st;
       filtered_chars := filtered_chars st ++ [c] |}
  else st.

(** [TTSInterface._filter_stream_text]; [text] is [None] or a string. *)
Definition _filter_stream_text {C} (self : TTS C) (text : option str)
  : TTS C * option str :=
  match text with
  | None => (self, None)
  | Some [] => (self, Some [])
  | Some text =>
      let start :=
        match _in_brackets self with
        | Some b => b
        | None => false
        end in
      let st :=
        fold_left scan_char text
          {| in_brackets := start; filtered_chars := [] |} in
      let result := filtered_chars st in
      let result := re_sub_url result in
      ({| conf := conf self; _in_brackets := Some (in_brackets st) |},
       Some result)
  end.

(** Consecutive calls on one engine object, one per fragment. *)
Fixpoint filter_fragments {C} (self : TTS C) (fragments : list (option str))
  : TTS C * list (option str) :=
  match fragments with
  | [] => (self, [])
  | f :: rest =>
      let '(self1, out) := _filter_stream_text self f in
      let '(self2, outs) := filter_fragments self1 rest in
      (self2, out :: outs)
  end.

(** [TTSInterface.generate_cache_file_name] *)
Definition generate_cache_file_name (file_name_no_ext : option str)
  (file_extension : str) : M str :=
  (let cache_dir := lit "cache" in
   present <- ask (fun w => os_path_exists w cache_dir) ;;
   (if negb present
    then perform (fun w => os_makedirs w cache_dir) (Makedirs cache_dir)
    else ret tt) ;;
   let file_name_no_ext :=
     match file_name_no_ext with
     | None => lit "temp"
     | Some n => n
     end in
   let file_name := file_name_no_ext ++ lit "." ++ file_extension in
   ask (fun w => os_path_join w cache_dir file_name))%eff.

(** The abstract method [generate_audio], implemented by each engine from
    the fields of its class; it does not touch [_in_brackets]. *)
Class Engine (C : Type) : Type := {
  generate_audio : C -> option str -> option str -> M str
}.

(** [TTSInterface.async_generate_audio]: the filtered text is always handed
    to [generate_audio], which runs on a worker thread. *)
Definition async_generate_audio {C} `{Engine C} (self : TTS C)
  (text : option str) (file_name_no_ext : option str) : TTS C * M str :=
  let '(self', safe_text) := _filter_stream_text self text in
  (self',
   (emit (ToThread safe_text file_name_no_ext) ;;
    generate_audio (conf self') safe_text file_name_no_ext)%eff).

End TTSInterface.
Import TTSInterface.

(** ** [_filter_stream_text] on any Python value *)

Module AnyValue.

(** Truth value of a Python value, as [not text] tests it; the text of a
    float is the one [repr] prints, so zero is ["0.0"] or ["-0.0"]. *)
Definition py_truth (v : pyval) : bool :=
  match v with
  | PyNone => false
  | PyBool b => b
  | PyInt z => negb (z =? 0)%Z
  | PyStr s => negb (falsy s)
  | PyFloat r => negb (String.eqb r "0.0" || String.eqb r "-0.0")
  end.

(** [for char in text]: a string yields its characters; [None], booleans,
    integers and floats are not iterable and raise [TypeError]. *)
Definition py_iter (v : pyval) : result str :=
  match v with
  | PyStr s => Return s
  | _ => Raise TypeError
  end.

(** [TTSInterface._filter_stream_text] called with any value as [text],
    with the exception each statement can raise: the guard returns a false
    value as it is, the attribute is created when absent, then the loop
    needs an iterable. *)
Definition _filter_stream_text_any {C} (self : TTS C) (text : pyval)
  : TTS C * result pyval :=
  if negb (py_truth text) then (self, Return text)
  else
    let self :=
      match _in_brackets self with
      | Some _ => self
      | None => {| conf := conf self; _in_brackets := Some false |}
      end in
    match py_iter text with
    | Raise e => (self, Raise e)
    | Return chars =>
        let start :=
          match _in_brackets self with
          | Some b => b
          | None => false
          end in
        let st :=
          fold_left scan_char chars
            {| in_brackets := start; filtered_chars := [] |} in
        let result := filtered_chars st in
        let result := re_sub_url result in
        ({| conf := conf self; _in_brackets := Some (in_brackets st) |},
         Return (PyStr result))
    end.

End AnyValue.
Import AnyValue.

(** ** [siliconflow_tts.py]: class [SiliconFlowTTS] *)

Module SiliconFlowTTS.

Local Open Scope Z_scope.

(** The fields set by [SiliconFlowTTS.__init__]. *)
Record SiliconFlowTTS : Type := {
  api_url : option str;
  api_key : str;
  default_model : pyval;
  default_voice : pyval;
  sample_rate : pyval;
  response_format : str;
  stream : pyval;
  speed : pyval;
  gain : pyval
}.

(** The empty bracket pairs ['（）'] and ['【】']. *)
Definition fullwidth_parens : str := [65288%N; 65289%N].
Definition lenticular_brackets : str := [12304%N; 12305%N].

(** Lines 36-40 of [generate_audio]: the URL removal followed by the four
    [replace] calls, in the order of the source. *)
Definition cleaned_text (text : str) : str :=
  let text := re_sub_url text in
  let text := replace_empty fullwidth_parens (replace_empty (lit "()") text) in
  let text := replace_empty lenticular_brackets (replace_empty (lit "[]") text) in
  text.

(** [Response.raise_for_status()] of the requests library: client and server
    error statuses raise [HTTPError]. *)
Definition raise_for_status (r : response) : M unit :=
  if (400 <=? status_code r) && (status_code r <? 600)
  then raise (HTTPError (status_code r))
  else ret tt.

(** [SiliconFlowTTS.generate_audio].  [re.sub] raises [TypeError] when
    [text] is [None]. *)
Definition generate_audio (self : SiliconFlowTTS) (text : option str)
  (file_name_no_ext : option str) : M str :=
  match text with
  | None => raise TypeError
  | Some original_text =>
      let text := cleaned_text original_text in
      ((if negb (str_eqb (strip text) (strip original_text))
        then logger INFO else ret tt) ;;
       if falsy (strip text) then
         logger WARNING ;; ret []
       else
         cache_file <-
           generate_cache_file_name file_name_no_ext (response_format self) ;;
         let payload :=
           {| p_input := text;
              p_response_format := response_format self;
              p_sample_rate := sample_rate self;
              p_stream := stream self;
              p_speed := speed self;
              p_gain := gain self;
              p_model := default_model self;
              p_voice := default_voice self |} in
         let headers :=
           [("Authorization"%string, lit "Bearer " ++ api_key self);
            ("Content-Type"%string, lit "application/json")] in
         try_except_Exception
           (match api_url self with
            | None => ret []
            | Some url =>
                response <-
                  perform
                    (fun w => requests_request w "POST" url payload headers)
                    (HttpRequest "POST" url payload headers) ;;
                raise_for_status response ;;
                perform (fun w => open_wb w cache_file) (OpenWb cache_file) ;;
                perform
                  (fun w => file_write w cache_file (content response))
                  (Write cache_file (content response)) ;;
                ret cache_file
            end)
           (fun e => logger ERROR ;; ret []))%eff
  end.

#[global] Instance engine : Engine SiliconFlowTTS :=
  {| TTSInterface.generate_audio := generate_audio |}.

End SiliconFlowTTS.

(** ** [rag_agent.py]: class [RAGAgent] *)

Module RAGAgent.

(** A chat message: [{'role': ..., 'content': ...}], whose content is a
    string or, for multimodal input, a list of dictionaries. *)
Definition dict : Type := list (string * pyval).

Fixpoint dict_get (d : dict) (key : string) : option pyval :=
  match d with
  | [] => None
  | (k, v) :: d' => if String.eqb k key then Some v else dict_get d' key
  end.

Fixpoint dict_set (d : dict) (key : string) (v : pyval) : dict :=
  match d with
  | [] => [(key, v)]
  | (k, v0) :: d' =>
      if String.eqb k key then (k, v) :: d' else (k, v0) :: dict_set d' key v
  end.

Inductive content : Type :=
| ContentStr (s : str)
| ContentList (items : list dict)
| ContentOther.

Record message : Type := {
  role : str;
  msg_content : content
}.

(** The fields of a [RAGAgent] that its own methods use. *)
Record RAGAgent : Type := {
  vector_store : option Chroma
}.

(** Truth value of [self.vector_store]. *)
Definition store_truthy (self : RAGAgent) : bool :=
  match vector_store self with
  | Some vs => truth vs
  | None => false
  end.

Definition str_of_nat (n : nat) : str :=
  lit (NilEmpty.string_of_uint (Nat.to_uint n)).

(** [sep.join(parts)] *)
Fixpoint join (sep : str) (parts : list str) : str :=
  match parts with
  | [] => []
  | [p] => p
  | p :: rest => p ++ sep ++ join sep rest
  end.

(** [[f"资料{i+1}: {doc.page_content}" for i, doc in enumerate(docs)]],
    with the enumeration starting at [i]. *)
Fixpoint context_list (i : nat) (docs : list Document) : list str :=
  match docs with
  | [] => []
  | doc :: rest =>
      ([36164; 26009]%N ++ str_of_nat (i + 1) ++ lit ": " ++ page_content doc)
        :: context_list (S i) rest
  end.

Definition week_days : list str :=
  [[21608; 19968]; [21608; 20108]; [21608; 19977]; [21608; 22235];
   [21608; 20116]; [21608; 20845]; [21608; 26085]]%N.

(** The prompt built at lines 91-97. *)
Definition augmented (date_info context user_text : str) : str :=
  ([12304; 31995; 32479; 26102; 38388; 12305; 10;
    29616; 22312; 26159; 65306]%N ++ date_info
   ++ [10; 10; 12304; 21442; 32771; 36164; 26009; 12305; 10]%N ++ context
   ++ [10; 10; 12304; 29992; 25143; 38382; 39064; 12305; 10]%N ++ user_text
   ++ [10; 10; 35831; 20248; 20808; 22522; 20110; 19978; 36848; 21442; 32771;
       36164; 26009; 22238; 31572; 29992; 25143; 38382; 39064; 12290; 22914;
       26524; 36164; 26009; 19981; 36275; 65292; 20877; 20351; 29992; 20320;
       30340; 36890; 29992; 30693; 35782; 12290]%N
   ++ [23545; 20110; 28041; 21450; 30456; 23545; 26085; 26399; 30340; 38382;
       39064; 65288; 22914; 8220; 26126; 22825; 8221; 65289; 65292; 35831;
       21153; 24517; 26681; 25454; 12304; 31995; 32479; 26102; 38388; 12305;
       36827; 34892; 25512; 31639; 12290]%N).

(** The loop at lines 105-108: the first item whose ['type'] is ['text']
    gets the new text. *)
Fixpoint set_first_text (items : list dict) (new_text : str) : list dict :=
  match items with
  | [] => []
  | item :: rest =>
      match dict_get item "type" with
      | Some (PyStr t) =>
          if str_eqb t (lit "text")
          then dict_set item "text" (PyStr new_text) :: rest
          else item :: set_first_text rest new_text
      | _ => item :: set_first_text rest new_text
      end
  end.

(** Lines 86-108: the last message, when it is the user's, gets the
    augmented content. *)
Definition augment_last (messages : list message) (new_text : str)
  : list message :=
  match rev messages with
  | [] => messages
  | last :: before =>
      if str_eqb (role last) (lit "user") then
        match msg_content last with
        | ContentStr _ =>
            rev before
              ++ [{| role := role last; msg_content := ContentStr new_text |}]
        | ContentList items =>
            rev before
              ++ [{| role := role last;
                     msg_content := ContentList (set_first_text items new_text) |}]
        | ContentOther => messages
        end
      else messages
  end.

Section Agent.

(** The methods inherited from [BasicMemoryAgent], whose source is not part
    of the repository files at hand. *)
Variable BatchInput : Type.
Variable super_init : M unit.
Variable super_to_messages : BatchInput -> M (list message).
Variable _to_text_prompt : BatchInput -> M str.

(** [RAGAgent.__init__] *)
Definition __init__ (vector_db_path : str) : M RAGAgent :=
  (super_init ;;
   logger INFO ;;
   try_except_Exception
     (call huggingface_embeddings ;;
      vs <- call (fun w => chroma_open w vector_db_path) ;;
      logger INFO ;;
      ret {| vector_store := Some vs |})
     (fun e => logger ERROR ;; ret {| vector_store := None |}))%eff.

(** [RAGAgent._retrieve_context] *)
Definition _retrieve_context (self : RAGAgent) (query : str) (k : Z)
  : M str :=
  match vector_store self with
  | None => ret []
  | Some vs =>
      if negb (truth vs) then ret []
      else
        try_except_Exception
          (docs <- call (fun _ => similarity_search vs query k) ;;
           match docs with
           | [] => ret []
           | _ => ret (join [10; 10]%N (context_list 0 docs))
           end)
          (fun e => logger ERROR ;; ret [])
  end%eff.

(** [RAGAgent._to_messages] *)
Definition _to_messages (self : RAGAgent) (input_data : BatchInput)
  : M (list message) :=
  (messages <- super_to_messages input_data ;;
   user_text <- _to_text_prompt input_data ;;
   now <- ask datetime_now ;;
   day <- match nth_error week_days (snd now) with
          | Some d => ret d
          | None => raise (OtherException "IndexError")
          end ;;
   let date_info := fst now ++ lit " " ++ day in
   if negb (falsy user_text) && store_truthy self then
     logger INFO ;;
     context <- _retrieve_context self user_text 3 ;;
     if negb (falsy context) then
       logger INFO ;;
       ret (augment_last messages (augmented date_info context user_text))
     else ret messages
   else ret messages)%eff.

End Agent.

End RAGAgent.

(** ** Notions used to state the properties *)

Section Notions.

Local Open Scope N_scope.

(** The current filter state of an engine: Suppressing is [true]; an absent
    attribute reads as Speaking. *)
Definition suppressing {C} (self : TTS C) : bool :=
  match _in_brackets self with
  | Some b => b
  | None => false
  end.

(** The characters one scan emits when it starts in state [b], and the state
    it ends in. *)
Fixpoint emitted (b : bool) (s : str) : str :=
  match s with
  | [] => []
  | c :: s' =>
      if is_open c then emitted true s'
      else if is_close c then emitted false s'
      else if b then emitted b s' else c :: emitted b s'
  end.

Fixpoint state_after (b : bool) (s : str) : bool :=
  match s with
  | [] => b
  | c :: s' =>
      if is_open c then state_after true s'
      else if is_close c then state_after false s'
      else state_after b s'
  end.

Definition is_bracket (c : char) : bool := is_open c || is_close c.

(** Whether the text [pre] ends inside a bracket span: its last bracket is
    an opening one; without any bracket the initial state [b] decides. *)
Definition span_open (b : bool) (pre : str) : bool :=
  match find is_bracket (rev pre) with
  | Some c => is_open c
  | None => b
  end.

(** The characters of [s] that are no brackets and stand outside every span
    from an opening bracket to the next closing bracket; [pre] is the text
    before [s]. *)
Fixpoint outside_from (b : bool) (pre s : str) : str :=
  match s with
  | [] => []
  | c :: s' =>
      if negb (is_bracket c) && negb (span_open b pre)
      then c :: outside_from b (pre ++ [c]) s'
      else outside_from b (pre ++ [c]) s'
  end.

Definition outside (b : bool) (s : str) : str := outside_from b [] s.

(** [l1] is obtained from [l2] by deleting characters. *)
Inductive subseq : str -> str -> Prop :=
| subseq_nil : subseq [] []
| subseq_drop c l1 l2 : subseq l1 l2 -> subseq l1 (c :: l2)
| subseq_keep c l1 l2 : subseq l1 l2 -> subseq (c :: l1) (c :: l2).

(** Some match of the pattern [m] starts somewhere in [s]. *)
Fixpoint occurs (m : str -> option nat) (s : str) : bool :=
  match s with
  | [] => false
  | _ :: s' =>
      match m s with
      | Some _ => true
      | None => occurs m s'
      end
  end.

(** [s] contains a match of [https?://\S+]; [s] contains the literal
    [pat]. *)
Definition has_url (s : str) : bool := occurs url_match s.
Definition contains (pat s : str) : bool := occurs (literal_match pat) s.

(** A match of [https?://\S+] starts at the head of [s]. *)
Definition starts_url (s : str) : bool :=
  match url_match s with
  | Some _ => true
  | None => false
  end.

(** The strings on which [https?://\S+] matches at the head. *)
Definition url_shape (s : str) : Prop :=
  exists scheme x t,
    (scheme = lit "http://" \/ scheme = lit "https://")
    /\ s = scheme ++ x :: t /\ nonspace x = true.

(** The text of the fragments an engine returns for the string fragments
    [frags], filtered one call after the other. *)
Definition text_of (o : option str) : str :=
  match o with
  | Some t => t
  | None => []
  end.

Definition outputs {C} (self : TTS C) (frags : list str) : list str :=
  map text_of (snd (filter_fragments self (map Some frags))).

Definition after {C} (self : TTS C) (frags : list str) : TTS C :=
  fst (filter_fragments self (map Some frags)).

(** The failures of the synthesis request that the trace records: the
    request raised an error, the response has a status that
    [raise_for_status] rejects, or opening or writing the cache file raised
    an error; the errors being of classes derived from [Exception]. *)
Definition backend_failure (ev : event) : bool :=
  match ev with
  | HttpRequest _ _ _ _ (Raise e) => is_Exception e
  | HttpRequest _ _ _ _ (Return r) =>
      ((400 <=? status_code r) && (status_code r <? 600))%Z
  | OpenWb _ (Raise e) => is_Exception e
  | Write _ _ (Raise e) => is_Exception e
  | _ => false
  end.

(** The [input] texts of the synthesis requests in a trace. *)
Fixpoint payload_texts (trace : list event) : list str :=
  match trace with
  | [] => []
  | HttpRequest _ _ json _ _ :: rest => p_input json :: payload_texts rest
  | _ :: rest => payload_texts rest
  end.

(** The effects on the file system and the network in a trace. *)
Definition touches_outside (ev : event) : bool :=
  match ev with
  | Makedirs _ _ | HttpRequest _ _ _ _ _ | OpenWb _ _ | Write _ _ _ => true
  | Log _ | ToThread _ _ => false
  end.

(** A configured engine, and worlds to run it in: one where every call
    succeeds, one where the network is down, one where the server answers
    with status 503 and one where the cache file cannot be written. *)
Definition example_engine : SiliconFlowTTS.SiliconFlowTTS :=
  {| SiliconFlowTTS.api_url := Some (lit "https://api.example/v1/audio/speech");
     SiliconFlowTTS.api_key := lit "key";
     SiliconFlowTTS.default_model := PyStr (lit "model");
     SiliconFlowTTS.default_voice := PyStr (lit "voice");
     SiliconFlowTTS.sample_rate := PyInt 32000;
     SiliconFlowTTS.response_format := lit "mp3";
     SiliconFlowTTS.stream := PyBool false;
     SiliconFlowTTS.speed := PyFloat "1.0";
     SiliconFlowTTS.gain := PyInt 0 |}.

Definition world_with (request : result response) (write : result unit)
  : world :=
  {| huggingface_embeddings := Return tt;
     chroma_open := fun _ => Raise (OSError "no database");
     datetime_now := (lit "2026-03-02", 0%nat);
     os_path_exists := fun _ => true;
     os_makedirs := fun _ => Return tt;
     os_path_join := fun a b => a ++ lit "/" ++ b;
     requests_request := fun _ _ _ _ => request;
     open_wb := fun _ => Return tt;
     file_write := fun _ _ => write |}.

Definition quiet_world : world :=
  world_with (Return {| status_code := 200; content := [82; 73; 70; 70] |})
             (Return tt).

Definition offline_world : world :=
  world_with (Raise (RequestException "connection refused")) (Return tt).

Definition overloaded_world : world :=
  world_with (Return {| status_code := 503; content := [] |}) (Return tt).

Definition full_disk_world : world :=
  world_with (Return {| status_code := 200; content := [82; 73; 70; 70] |})
             (Raise (OSError "no space left on device")).

(** Retrieval is unavailable for a query: there is no store, the store
    object is false, the search returns no document, or the search raises an
    error of a class derived from [Exception]. *)
Definition retrieval_unavailable (self : RAGAgent.RAGAgent) (query : str)
  (k : Z) : Prop :=
  match RAGAgent.vector_store self with
  | None => True
  | Some vs =>
      truth vs = false
      \/ similarity_search vs query k = Return []
      \/ exists e, similarity_search vs query k = Raise e
                   /\ is_Exception e = true
  end.

(** Agents whose store is missing, fails on every search, or finds nothing,
    and one whose store finds two documents. *)
Definition agent_without_store : RAGAgent.RAGAgent :=
  {| RAGAgent.vector_store := None |}.

Definition agent_with_search (search : result (list Document))
  : RAGAgent.RAGAgent :=
  {| RAGAgent.vector_store :=
       Some {| truth := true; similarity_search := fun _ _ => search |} |}.

Definition failing_agent : RAGAgent.RAGAgent :=
  agent_with_search (Raise (OtherException "ChromaError")).

Definition empty_handed_agent : RAGAgent.RAGAgent :=
  agent_with_search (Return []).

Definition informed_agent : RAGAgent.RAGAgent :=
  agent_with_search
    (Return [{| page_content := lit "Monday: algebra" |};
             {| page_content := lit "Tuesday: physics" |}]).

(** A base agent for the examples: the input is the user's text, and the
    base message list is that text as one user message. *)
Definition base_messages (input : str) : M (list RAGAgent.message) :=
  ret [{| RAGAgent.role := lit "user";
          RAGAgent.msg_content := RAGAgent.ContentStr input |}].

Definition base_text_prompt (input : str) : M str := ret input.

End Notions.

(** ** A trace-and-error monad over any world and any kind of event *)

Module Run.

Section Run.

Variables W E : Type.

Definition Run (A : Type) : Type := W -> list E * result A.

Definition ret {A} (a : A) : Run A := fun _ => ([], Return a).

Definition bind {A B} (m : Run A) (f : A -> Run B) : Run B :=
  fun w =>
    match m w with
    | (t1, Return a) => let '(t2, r) := f a w in (t1 ++ t2, r)
    | (t1, Raise e) => (t1, Raise e)
    end.

(** [try: m  except Exception as e: h e] *)
Definition try_except_Exception {A} (m : Run A) (h : exn -> Run A) : Run A :=
  fun w =>
    match m w with
    | (t1, Raise e) =>
        if is_Exception e
        then let '(t2, r) := h e w in (t1 ++ t2, r)
        else (t1, Raise e)
    | done => done
    end.

Definition emit (ev : E) : Run unit := fun _ => ([ev], Return tt).

Definition perform {A} (ask : W -> result A) (ev : result A -> E) : Run A :=
  fun w => ([ev (ask w)], ask w).

Definition ask {A} (f : W -> A) : Run A := fun w => ([], Return (f w)).

Definition call {A} (f : W -> result A) : Run A := fun w => ([], f w).

End Run.

Arguments ret {W E A} a.
Arguments bind {W E A B} m f.
Arguments try_except_Exception {W E A} m h.
Arguments emit {W E} ev.
Arguments perform {W E A} ask ev.
Arguments ask {W E A} f.
Arguments call {W E A} f.

End Run.

Declare Scope run_scope.
Delimit Scope run_scope with run.
Notation "x <- m ;; k" := (Run.bind m (fun x => k))
  (at level 61, m at next level, right associativity) : run_scope.
Notation "m ;; k" := (Run.bind m (fun _ => k))
  (at level 61, right associativity) : run_scope.

(** ** [tts_interface.py]: [TTSInterface.remove_file] *)

Module RemoveFile.

(** The outcomes of [os.path.exists(filepath)] and [os.remove(filepath)]. *)
Record world : Type := {
  path_exists : str -> bool;
  os_remove : str -> result unit
}.

Inductive event : Type :=
| Logged (level : log_level)
| Removed (path : str) (outcome : result unit).

(** [TTSInterface.remove_file], which [SiliconFlowTTS.remove_file] calls
    through [super()]. *)
Definition remove_file (filepath : str) (verbose : bool)
  : Run.Run world event unit :=
  (present <- Run.ask (fun w => path_exists w filepath) ;;
   if negb present then
     Run.emit (Logged WARNING)
   else
     Run.try_except_Exception
       ((if verbose then Run.emit (Logged DEBUG) else Run.ret tt) ;;
        Run.perform (fun w => os_remove w filepath) (Removed filepath))
       (fun e => Run.emit (Logged ERROR)))%run.

End RemoveFile.

(** ** [scripts/build_knowledge_base.py] *)

Module BuildKnowledgeBase.

Definition DATA_SOURCE_PATH : str := lit "./knowledge_data".
Definition DB_PERSIST_PATH : str := lit "./chroma_db".
Definition batch_size : nat := 100.

(** The lines the script prints, with the numbers they show. *)
Inductive line : Type :=
| MissingDataDir
| CleaningOldDatabase
| LoadingTxt
| FoundTxt (n : nat)
| LoadingMd
| FoundMd (n : nat)
| NoDocuments
| Splitting
| SplitInto (n : nat)
| LoadingModel
| BuildingDatabase
| Processed (done total : nat)
| Finished.

Inductive event : Type :=
| Stdout (l : line)
| Rmtree (path : str) (outcome : result unit)
| AddDocuments (batch : list Document) (outcome : result unit).

(** The outcomes of [os.path.exists], [shutil.rmtree], the two
    [DirectoryLoader(DATA_SOURCE_PATH, glob=...).load()] calls,
    [text_splitter.split_documents], the constructors
    [HuggingFaceEmbeddings(...)] and [Chroma(...)], and
    [vector_store.add_documents]. *)
Record world : Type := {
  path_exists : str -> bool;
  rmtree : str -> result unit;
  load : str -> result (list Document);
  split_documents : list Document -> result (list Document);
  embeddings : result unit;
  chroma : result unit;
  add_documents : list Document -> result unit
}.

(** [range(start, stop, step)] for a positive [step]; the values lie below
    [stop], so [stop] steps are enough. *)
Fixpoint range_from (fuel start stop step : nat) : list nat :=
  match fuel with
  | O => []
  | S fuel' =>
      if start <? stop
      then start :: range_from fuel' (start + step) stop step
      else []
  end.

Definition range (start stop step : nat) : list nat :=
  range_from stop start stop step.

(** [l[i:j]] for [0 <= i <= j]. *)
Definition slice {A} (l : list A) (i j : nat) : list A :=
  firstn (j - i) (skipn i l).

(** The loop at lines 94-97, over the remaining values of [i]. *)
Fixpoint add_batches (splits : list Document) (indices : list nat)
  : Run.Run world event unit :=
  match indices with
  | [] => Run.ret tt
  | i :: rest =>
      (let batch := slice splits i (i + batch_size) in
       Run.perform (fun w => add_documents w batch) (AddDocuments batch) ;;
       Run.emit (Stdout (Processed (Nat.min (i + batch_size)
                                            (List.length splits))
                                   (List.length splits))) ;;
       add_batches splits rest)%run
  end.

(** [build_database] *)
Definition build_database : Run.Run world event unit :=
  (data <- Run.ask (fun w => path_exists w DATA_SOURCE_PATH) ;;
   if negb data then
     Run.emit (Stdout MissingDataDir)
   else
     old <- Run.ask (fun w => path_exists w DB_PERSIST_PATH) ;;
     (if old then
        Run.emit (Stdout CleaningOldDatabase) ;;
        Run.perform (fun w => rmtree w DB_PERSIST_PATH)
                    (Rmtree DB_PERSIST_PATH)
      else Run.ret tt) ;;
     let all_documents := [] in
     Run.emit (Stdout LoadingTxt) ;;
     docs_txt <- Run.call (fun w => load w (lit "**/*.txt")) ;;
     let all_documents := all_documents ++ docs_txt in
     Run.emit (Stdout (FoundTxt (List.length docs_txt))) ;;
     Run.emit (Stdout LoadingMd) ;;
     docs_md <- Run.call (fun w => load w (lit "**/*.md")) ;;
     let all_documents := all_documents ++ docs_md in
     Run.emit (Stdout (FoundMd (List.length docs_md))) ;;
     match all_documents with
     | [] => Run.emit (Stdout NoDocuments)
     | _ =>
         Run.emit (Stdout Splitting) ;;
         splits <- Run.call (fun w => split_documents w all_documents) ;;
         Run.emit (Stdout (SplitInto (List.length splits))) ;;
         Run.emit (Stdout LoadingModel) ;;
         Run.call embeddings ;;
         Run.emit (Stdout BuildingDatabase) ;;
         Run.call chroma ;;
         add_batches splits (range 0 (List.length splits) batch_size) ;;
         Run.emit (Stdout Finished)
     end)%run.

End BuildKnowledgeBase.

(** ** Notions used to state further properties *)

Section MoreNotions.

(** The batches that a trace of the build script shows as stored. *)
Fixpoint stored_batches (trace : list BuildKnowledgeBase.event)
  : list (list Document) :=
  match trace with
  | [] => []
  | BuildKnowledgeBase.AddDocuments batch (Return _) :: rest =>
      batch :: stored_batches rest
  | _ :: rest => stored_batches rest
  end.

(** The batches that a trace shows as handed to the store, stored or not. *)
Fixpoint sent_batches (trace : list BuildKnowledgeBase.event)
  : list (list Document) :=
  match trace with
  | [] => []
  | BuildKnowledgeBase.AddDocuments batch _ :: rest =>
      batch :: sent_batches rest
  | _ :: rest => sent_batches rest
  end.

(** Whether a trace of the build script removed a directory tree. *)
Definition is_rmtree (ev : BuildKnowledgeBase.event) : bool :=
  match ev with
  | BuildKnowledgeBase.Rmtree _ _ => true
  | _ => false
  end.

(** Whether a trace of [remove_file] tried to remove a file. *)
Definition is_removal (ev : RemoveFile.event) : bool :=
  match ev with
  | RemoveFile.Removed _ _ => true
  | RemoveFile.Logged _ => false
  end.

(** The requests, file openings and file writes in a trace. *)
Definition is_request_or_write (ev : event) : bool :=
  match ev with
  | HttpRequest _ _ _ _ _ | OpenWb _ _ | Write _ _ _ => true
  | _ => false
  end.

(** An item of a multimodal message content is a text item. *)
Definition is_text_item (item : RAGAgent.dict) : bool :=
  match RAGAgent.dict_get item "type" with
  | Some (PyStr t) => str_eqb t (lit "text")
  | _ => false
  end.

(** The entry of the context for the document [doc] with number [n]:
    [f"资料{n}: {doc.page_content}"]. *)
Definition context_entry (n : nat) (doc : Document) : str :=
  [36164; 26009]%N ++ RAGAgent.str_of_nat n ++ lit ": " ++ page_content doc.

(** Worlds for the build script and for [remove_file]. *)
Definition documents (n : nat) : list Document :=
  map (fun i => {| page_content := RAGAgent.str_of_nat i |}) (seq 0 n).

Definition build_world (data old : bool) (txt md : list Document)
  (chunks : list Document) : BuildKnowledgeBase.world :=
  {| BuildKnowledgeBase.path_exists :=
       fun p => if str_eqb p BuildKnowledgeBase.DATA_SOURCE_PATH
                then data else old;
     BuildKnowledgeBase.rmtree := fun _ => Return tt;
     BuildKnowledgeBase.load :=
       fun glob => if str_eqb glob (lit "**/*.txt")
                   then Return txt else Return md;
     BuildKnowledgeBase.split_documents := fun _ => Return chunks;
     BuildKnowledgeBase.embeddings := Return tt;
     BuildKnowledgeBase.chroma := Return tt;
     BuildKnowledgeBase.add_documents := fun _ => Return tt |}.

Definition removal_world (present : bool) (outcome : result unit)
  : RemoveFile.world :=
  {| RemoveFile.path_exists := fun _ => present;
     RemoveFile.os_remove := fun _ => outcome |}.

Definition no_cache_dir_world (e : exn) : world :=
  {| huggingface_embeddings := Return tt;
     chroma_open := fun _ => Raise (OSError "no database");
     datetime_now := (lit "2026-03-02", 0%nat);
     os_path_exists := fun _ => false;
     os_makedirs := fun _ => Raise e;
     os_path_join := fun a b => a ++ lit "/" ++ b;
     requests_request :=
       fun _ _ _ _ => Return {| status_code := 200; content := [] |};
     open_wb := fun _ => Return tt;
     file_write := fun _ _ => Return tt |}.

End MoreNotions.

Ltac run_steps :=
  cbv [Run.bind Run.ret Run.emit Run.try_except_Exception Run.perform
       Run.ask Run.call].

Ltac next_step := cbv beta iota zeta; cbn [negb app].

Ltac run_effects :=
  cbv [bind ret raise logger emit try_except_Exception perform ask call
       generate_cache_file_name SiliconFlowTTS.raise_for_status].

Ltac split_cases :=
  repeat (cbv beta iota zeta;
          match goal with
          | |- context [match ?x with _ => _ end] =>
              lazymatch x with
              | context [match _ with _ => _ end] => fail
              | _ => destruct x eqn:?
              end
          end).

(** ** The scanning loop *)

Section ScanFacts.

Local Open Scope N_scope.

Lemma fold_scan_char (s : str) (b : bool) (acc : list char) :
  fold_left scan_char s {| in_brackets := b; filtered_chars := acc |}
  = {| in_brackets := state_after b s;
       filtered_chars := acc ++ emitted b s |}.
Proof.
  revert b acc.
  induction s as [|c s IH]; intros b acc; simpl.
  - now rewrite app_nil_r.
  - unfold scan_char at 2; simpl.
    destruct (is_open c); [apply IH|].
    destruct (is_close c); [apply IH|].
    destruct b; simpl; [apply IH|].
    rewrite IH, <- app_assoc. reflexivity.
Qed.

(** One call of the filter on a string, in terms of [emitted] and
    [state_after]. *)
Lemma filter_text {C} (self : TTS C) (t : str) :
  snd (_filter_stream_text self (Some t))
  = Some (re_sub_url (emitted (suppressing self) t))
  /\ suppressing (fst (_filter_stream_text self (Some t)))
     = state_after (suppressing self) t
  /\ conf (fst (_filter_stream_text self (Some t))) = conf self.
Proof.
  destruct t as [|c t]; [repeat split|].
  unfold _filter_stream_text.
  fold (suppressing self).
  rewrite fold_scan_char.
  repeat split.
Qed.

Lemma emitted_app (s1 s2 : str) (b : bool) :
  emitted b (s1 ++ s2) = emitted b s1 ++ emitted (state_after b s1) s2.
Proof.
  revert b; induction s1 as [|c s1 IH]; intros b; simpl; [reflexivity|].
  destruct (is_open c); [apply IH|].
  destruct (is_close c); [apply IH|].
  destruct b; [apply IH|].
  simpl; f_equal; apply IH.
Qed.

Lemma state_after_app (s1 s2 : str) (b : bool) :
  state_after b (s1 ++ s2) = state_after (state_after b s1) s2.
Proof.
  revert b; induction s1 as [|c s1 IH]; intros b; simpl; [reflexivity|].
  destruct (is_open c); [apply IH|].
  destruct (is_close c); apply IH.
Qed.

Lemma open_not_close (c : char) : is_open c = true -> is_close c = false.
Proof.
  unfold is_open, is_close; intros H.
  apply orb_true_iff in H.
  destruct H as [H|H]; apply N.eqb_eq in H; subst; reflexivity.
Qed.

Lemma span_open_snoc (b : bool) (pre : str) (c : char) :
  span_open b (pre ++ [c])
  = if is_open c then true else if is_close c then false else span_open b pre.
Proof.
  unfold span_open. rewrite rev_app_distr; simpl.
  unfold is_bracket at 1.
  destruct (is_open c) eqn:Ho; simpl; [exact Ho|].
  destruct (is_close c) eqn:Hc; simpl; [exact Ho | reflexivity].
Qed.

Lemma outside_from_emitted (b : bool) (s pre : str) :
  outside_from b pre s = emitted (span_open b pre) s.
Proof.
  revert pre; induction s as [|c s IH]; intros pre; simpl; [reflexivity|].
  rewrite !IH, span_open_snoc.
  unfold is_bracket.
  destruct (is_open c); simpl; [reflexivity|].
  destruct (is_close c); simpl; [reflexivity|].
  destruct (span_open b pre); reflexivity.
Qed.

Lemma outside_emitted (b : bool) (s : str) : outside b s = emitted b s.
Proof. apply outside_from_emitted. Qed.

Lemma emitted_no_close (s : str) :
  (forall c, In c s -> is_close c = false) ->
  emitted true s = [] /\ state_after true s = true.
Proof.
  induction s as [|c s IH]; intros H; simpl; [split; reflexivity|].
  rewrite (H c (or_introl eq_refl)).
  destruct (is_open c); apply IH; intros d Hd; apply H; now right.
Qed.

Lemma emitted_no_bracket (s : str) :
  (forall c, In c s -> is_open c = false /\ is_close c = false) ->
  emitted false s = s /\ state_after false s = false.
Proof.
  induction s as [|c s IH]; intros H; simpl; [split; reflexivity|].
  destruct (H c (or_introl eq_refl)) as [-> ->].
  destruct IH as [IH1 IH2]; [intros d Hd; apply H; now right|].
  now rewrite IH1, IH2.
Qed.

End ScanFacts.

(** ** Deleting matches: [re.sub] and [str.replace] *)

Section DeleteFacts.

Local Open Scope N_scope.

Lemma strip_prefix_Some (p s r : str) :
  strip_prefix p s = Some r <-> s = p ++ r.
Proof.
  revert s; induction p as [|a p IH]; intros s; simpl.
  - split; [intros [= ->] | intros ->]; reflexivity.
  - destruct s as [|b s]; [split; discriminate|].
    destruct (N.eqb_spec a b) as [->|Hab].
    + rewrite IH. split; [intros -> | intros [= ->]]; reflexivity.
    + split; [discriminate | intros [= E _]; congruence].
Qed.

Lemma delete_from_skipn (m : str -> option nat) (s : str) (k : nat) :
  delete_from m k s = delete_matches m (skipn k s).
Proof.
  revert k; induction s as [|c s IH]; intros [|k]; try reflexivity.
  simpl. apply IH.
Qed.

Lemma subseq_nil_l (s : str) : subseq [] s.
Proof. induction s; constructor; assumption. Qed.

Lemma subseq_refl (s : str) : subseq s s.
Proof. induction s; constructor; assumption. Qed.

Lemma subseq_app (a b c d : str) :
  subseq a b -> subseq c d -> subseq (a ++ c) (b ++ d).
Proof.
  intros Hab Hcd; induction Hab; simpl; try constructor; assumption.
Qed.

Lemma delete_from_subseq (m : str -> option nat) (s : str) (k : nat) :
  subseq (delete_from m k s) s.
Proof.
  revert k; induction s as [|c s IH]; intros k; simpl; [constructor|].
  destruct k as [|k]; [|constructor; apply IH].
  destruct (m (c :: s)) as [[|j]|]; constructor; apply IH.
Qed.

Lemma occurs_none_delete (m : str -> option nat) (s : str) :
  occurs m s = false -> delete_matches m s = s.
Proof.
  unfold delete_matches.
  induction s as [|c s IH]; simpl; [reflexivity|].
  destruct (m (c :: s)); [discriminate|].
  intros H; f_equal; apply IH, H.
Qed.

Lemma span_len_app (f : char -> bool) (p s : str) :
  Forall (fun c => f c = true) p ->
  span_len f (p ++ s) = (List.length p + span_len f s)%nat.
Proof.
  induction 1 as [|c p Hc _ IH]; simpl; [reflexivity|].
  now rewrite Hc, IH.
Qed.

Lemma span_len_rest (f : char -> bool) (s : str) :
  match skipn (span_len f s) s with
  | [] => True
  | c :: _ => f c = false
  end.
Proof.
  induction s as [|c s IH]; simpl; [exact I|].
  destruct (f c) eqn:E; simpl; assumption.
Qed.

Lemma match_colon_slashes_Some (r : str) (n : nat) :
  match_colon_slashes r = Some n ->
  exists x t, r = lit "://" ++ x :: t /\ nonspace x = true
              /\ n = (3 + span_len nonspace (x :: t))%nat.
Proof.
  unfold match_colon_slashes.
  destruct (strip_prefix (lit "://") r) as [r'|] eqn:E; [|discriminate].
  apply strip_prefix_Some in E; subst r.
  destruct r' as [|x t]; simpl; [discriminate|].
  destruct (nonspace x) eqn:Hx; [|discriminate].
  intros [= <-]. exists x, t. rewrite Hx. repeat split.
Qed.

Lemma nonspace_scheme (scheme : str) :
  scheme = lit "http://" \/ scheme = lit "https://" ->
  Forall (fun c => nonspace c = true) scheme.
Proof. intros [-> | ->]; repeat constructor. Qed.

Lemma url_match_Some (s : str) (n : nat) :
  url_match s = Some n -> url_shape s /\ n = span_len nonspace s.
Proof.
  unfold url_match.
  destruct (strip_prefix (lit "http") s) as [r|] eqn:E; [|discriminate].
  apply strip_prefix_Some in E; subst s.
  unfold match_optional_s.
  destruct (strip_prefix (lit "s") r) as [r1|] eqn:E1.
  - apply strip_prefix_Some in E1; subst r.
    destruct (match_colon_slashes r1) as [k|] eqn:E2.
    + apply match_colon_slashes_Some in E2.
      destruct E2 as (x & t & -> & Hx & ->).
      intros [= <-]. split.
      * exists (lit "https://"), x, t. repeat split; auto.
      * change (lit "http" ++ lit "s" ++ lit "://" ++ x :: t)
          with (lit "https://" ++ x :: t).
        rewrite span_len_app by (apply nonspace_scheme; auto).
        reflexivity.
    + simpl. discriminate.
  - destruct (match_colon_slashes r) as [k|] eqn:E2; [|discriminate].
    apply match_colon_slashes_Some in E2.
    destruct E2 as (x & t & -> & Hx & ->).
    intros [= <-]. split.
    * exists (lit "http://"), x, t. repeat split; auto.
    * change (lit "http" ++ lit "://" ++ x :: t)
        with (lit "http://" ++ x :: t).
      rewrite span_len_app by (apply nonspace_scheme; auto).
      reflexivity.
Qed.

Lemma url_shape_starts (s : str) : url_shape s -> starts_url s = true.
Proof.
  intros (scheme & x & t & [-> | ->] & -> & Hx);
    unfold starts_url, url_match, match_optional_s, match_colon_slashes;
    simpl; rewrite Hx; reflexivity.
Qed.

Lemma starts_url_shape (s : str) : starts_url s = true <-> url_shape s.
Proof.
  split; [|apply url_shape_starts].
  unfold starts_url.
  destruct (url_match s) as [n|] eqn:E; [|discriminate].
  intros _. apply (url_match_Some _ _ E).
Qed.

Lemma starts_url_app (p q : str) :
  starts_url p = true -> starts_url (p ++ q) = true.
Proof.
  rewrite !starts_url_shape.
  intros (scheme & x & t & Hs & -> & Hx).
  exists scheme, x, (t ++ q). rewrite <- app_assoc. auto.
Qed.

(** A prefix made of non-blank characters ends before the first blank. *)
Lemma prefix_before_space (l2 l1 q t : str) (w : char) :
  Forall (fun c => nonspace c = true) l2 -> isspace w = true ->
  l1 ++ w :: q = l2 ++ t -> exists r, l1 = l2 ++ r.
Proof.
  intros Hl2 Hw; revert l1.
  induction Hl2 as [|a l2 Ha _ IH]; intros l1 E; simpl in *.
  - now exists l1.
  - destruct l1 as [|b l1]; simpl in E; injection E as -> E.
    + unfold nonspace in Ha; rewrite Hw in Ha; discriminate.
    + destruct (IH _ E) as [r ->]. now exists r.
Qed.

Lemma starts_url_space (p q : str) (w : char) :
  isspace w = true -> starts_url (p ++ w :: q) = true -> starts_url p = true.
Proof.
  intros Hw. rewrite !starts_url_shape.
  intros (scheme & x & t & Hs & E & Hx).
  assert (Hall : Forall (fun c => nonspace c = true) (scheme ++ [x])).
  { apply Forall_app; split; [apply nonspace_scheme, Hs | now constructor]. }
  replace (scheme ++ x :: t) with ((scheme ++ [x]) ++ t) in E
    by (now rewrite <- app_assoc).
  destruct (prefix_before_space _ _ _ _ _ Hall Hw E) as [r ->].
  exists scheme, x, r. rewrite <- app_assoc. auto.
Qed.

Lemma url_match_space (w : char) (t : str) :
  isspace w = true -> url_match (w :: t) = None.
Proof.
  intros Hw. destruct (url_match (w :: t)) as [n|] eqn:E; [|reflexivity].
  apply url_match_Some in E. destruct E as [(scheme & x & r & Hs & E & _) _].
  destruct Hs as [-> | ->]; injection E as -> _; discriminate.
Qed.

(** What is left behind a match starts with a blank, so behind a deleted
    match no new match can begin before that blank. *)
Lemma re_sub_url_after_match (s : str) (n : nat) :
  url_match s = Some n ->
  re_sub_url (skipn n s) = []
  \/ exists w t, isspace w = true /\ re_sub_url (skipn n s) = w :: t.
Proof.
  intros E. apply url_match_Some in E. destruct E as [_ ->].
  pose proof (span_len_rest nonspace s) as H.
  destruct (skipn (span_len nonspace s) s) as [|w r]; [now left|].
  right. apply negb_false_iff in H.
  unfold re_sub_url, delete_matches; simpl.
  rewrite (url_match_space _ _ H). eauto.
Qed.

Lemma starts_url_re_sub (s p : str) :
  starts_url (p ++ s) = false -> starts_url (p ++ re_sub_url s) = false.
Proof.
  revert p; induction s as [|c s IH]; intros p H; [exact H|].
  unfold re_sub_url, delete_matches; simpl.
  destruct (url_match (c :: s)) as [[|k]|] eqn:E.
  - apply url_match_Some in E. destruct E as [(? & ? & ? & Hs & -> & Hx) E].
    rewrite span_len_app in E by (apply nonspace_scheme, Hs).
    destruct Hs as [-> | ->]; discriminate.
  - rewrite delete_from_skipn.
    change (delete_matches url_match (skipn k s))
      with (re_sub_url (skipn (S k) (c :: s))).
    assert (Hp : starts_url p = false).
    { destruct (starts_url p) eqn:Hp; [|reflexivity].
      now rewrite (starts_url_app _ (c :: s) Hp) in H. }
    destruct (re_sub_url_after_match _ _ E) as [-> | (w & t & Hw & ->)].
    + now rewrite app_nil_r.
    + destruct (starts_url (p ++ w :: t)) eqn:Hq; [|reflexivity].
      now rewrite (starts_url_space _ _ _ Hw Hq) in Hp.
  - replace (p ++ c :: delete_from url_match 0 s)
      with ((p ++ [c]) ++ re_sub_url s) by (now rewrite <- app_assoc).
    apply IH. now rewrite <- app_assoc.
Qed.

(** [re.sub] leaves no match of its pattern behind. *)
Lemma has_url_re_sub_bounded (n : nat) (s : str) :
  (List.length s <= n)%nat -> has_url (re_sub_url s) = false.
Proof.
  revert s; induction n as [|n IH]; intros s Hn.
  - destruct s; [reflexivity | simpl in Hn; lia].
  - destruct s as [|c s]; [reflexivity|].
    simpl in Hn.
    unfold re_sub_url, delete_matches; simpl.
    destruct (url_match (c :: s)) as [[|k]|] eqn:E.
    + apply url_match_Some in E. destruct E as [(? & ? & ? & Hs & -> & Hx) E].
      rewrite span_len_app in E by (apply nonspace_scheme, Hs).
      destruct Hs as [-> | ->]; discriminate.
    + rewrite delete_from_skipn. apply (IH (skipn k s)).
      rewrite length_skipn. lia.
    + unfold has_url; simpl.
      pose proof (starts_url_re_sub s [c]) as G. simpl in G.
      unfold starts_url in G at 1. rewrite E in G.
      specialize (G eq_refl). unfold starts_url, re_sub_url, delete_matches in G.
      destruct (url_match (c :: delete_from url_match 0 s)); [discriminate|].
      apply (IH s). lia.
Qed.

Lemma has_url_re_sub (s : str) : has_url (re_sub_url s) = false.
Proof. apply (has_url_re_sub_bounded (List.length s)). lia. Qed.

(** Blank text holds no match of a pattern whose matches start with a
    non-blank character. *)
Lemma occurs_blank (m : str -> option nat) (s : str) :
  (forall w t, isspace w = true -> m (w :: t) = None) ->
  Forall (fun c => isspace c = true) s -> occurs m s = false.
Proof.
  intros Hm; induction 1 as [|c s Hc _ IH]; simpl; [reflexivity|].
  now rewrite (Hm _ _ Hc).
Qed.

Lemma literal_match_space (a w : char) (old t : str) :
  isspace a = false -> isspace w = true ->
  literal_match (a :: old) (w :: t) = None.
Proof.
  intros Ha Hw. unfold literal_match; simpl.
  destruct (N.eqb_spec a w) as [->|]; [congruence | reflexivity].
Qed.

Lemma lstrip_nil (s : str) :
  lstrip s = [] -> Forall (fun c => isspace c = true) s.
Proof.
  induction s as [|c s IH]; simpl; [constructor|].
  destruct (isspace c) eqn:E; [|discriminate].
  intros H; constructor; auto.
Qed.

Lemma lstrip_head (s : str) :
  match lstrip s with
  | [] => True
  | c :: _ => isspace c = false
  end.
Proof.
  induction s as [|c s IH]; simpl; [exact I|].
  destruct (isspace c) eqn:E; assumption.
Qed.

Lemma strip_nil (s : str) :
  strip s = [] -> Forall (fun c => isspace c = true) s.
Proof.
  unfold strip. intros H.
  apply (f_equal (@rev char)) in H. rewrite rev_involutive in H. simpl in H.
  apply lstrip_nil in H.
  pose proof (lstrip_head s) as Hh.
  destruct (lstrip s) as [|c r] eqn:E; [now apply lstrip_nil|].
  apply Forall_rev in H. rewrite rev_involutive in H.
  inversion H; congruence.
Qed.

Lemma lstrip_blank (s : str) :
  Forall (fun c => isspace c = true) s -> lstrip s = [].
Proof. induction 1 as [|c s Hc _ IH]; simpl; [|rewrite Hc]; auto. Qed.

End DeleteFacts.

(** ** Fragment sequences *)

Section FragmentFacts.

Context {C : Type}.

Lemma outputs_cons (self : TTS C) (f : str) (rest : list str) :
  outputs self (f :: rest)
  = text_of (snd (_filter_stream_text self (Some f)))
      :: outputs (fst (_filter_stream_text self (Some f))) rest.
Proof.
  unfold outputs. cbn [map filter_fragments].
  destruct (_filter_stream_text self (Some f)) as [self1 out].
  cbn [fst snd].
  destruct (filter_fragments self1 (map Some rest)); reflexivity.
Qed.

Lemma after_cons (self : TTS C) (f : str) (rest : list str) :
  after self (f :: rest) = after (fst (_filter_stream_text self (Some f))) rest.
Proof.
  unfold after. cbn [map filter_fragments].
  destruct (_filter_stream_text self (Some f)) as [self1 out].
  cbn [fst snd].
  destruct (filter_fragments self1 (map Some rest)); reflexivity.
Qed.

Lemma outputs_subseq (frags : list str) (self : TTS C) :
  subseq (List.concat (outputs self frags))
         (emitted (suppressing self) (List.concat frags)).
Proof.
  revert self; induction frags as [|f rest IH]; intros self.
  - constructor.
  - rewrite outputs_cons.
    destruct (filter_text self f) as (-> & Hst & _).
    cbn [text_of List.concat].
    rewrite emitted_app, <- Hst.
    apply subseq_app; [apply delete_from_subseq | apply IH].
Qed.

Lemma outputs_url_free (frags : list str) (self : TTS C) :
  Forall (fun out => has_url out = false) (outputs self frags).
Proof.
  revert self; induction frags as [|f rest IH]; intros self.
  - constructor.
  - rewrite outputs_cons.
    destruct (filter_text self f) as (-> & _ & _).
    constructor; [apply has_url_re_sub | apply IH].
Qed.

Lemma outputs_suppressed (frags : list str) (self : TTS C) :
  suppressing self = true ->
  (forall f c, In f frags -> In c f -> is_close c = false) ->
  outputs self frags = map (fun _ => []) frags
  /\ suppressing (after self frags) = true.
Proof.
  revert self; induction frags as [|f rest IH]; intros self Hs Hno.
  - split; [reflexivity | exact Hs].
  - rewrite outputs_cons, after_cons.
    destruct (filter_text self f) as (-> & Hst & _).
    rewrite Hs in *.
    destruct (emitted_no_close f) as [-> E2].
    { intros c Hc; apply (Hno f c); [now left | exact Hc]. }
    rewrite E2 in Hst.
    destruct (IH _ Hst) as [-> ->]; [|split; reflexivity].
    intros g c Hg Hc; apply (Hno g c); [now right | exact Hc].
Qed.

End FragmentFacts.

(** ** Properties of the stream text filter *)

(** The URL pass on a text without brackets, and brackets of mixed width. *)
Example url_backstop :
  snd (_filter_stream_text (new tt) (Some (lit "see http://x.com/y now")))
  = Some (lit "see  now")
  /\ snd (_filter_stream_text (new tt) (Some [65; 65288; 66; 41; 67]%N))
     = Some (lit "AC").
Proof. split; reflexivity. Qed.

(** C1, as amended.  For every engine and every sequence of string fragments
    filtered in order, the concatenated output is obtained by deleting
    characters from those characters of the concatenated input that are no
    brackets and stand outside every span from an opening bracket to the
    next closing bracket (the state the engine starts in deciding for the
    text before the first bracket); and no single returned fragment contains
    a match of [https?://\S+]. *)
Theorem filter_keeps_only_text_outside_brackets
  (C : Type) (self : TTS C) (frags : list str) :
  subseq (List.concat (outputs self frags))
         (outside (suppressing self) (List.concat frags))
  /\ Forall (fun out => has_url out = false) (outputs self frags).
Proof.
  split.
  - rewrite outside_emitted. apply outputs_subseq.
  - apply outputs_url_free.
Qed.

(** C1 as stated fails: a URL that arrives split over two fragments is in
    the concatenated output. *)
Lemma url_split_over_fragments_is_spoken :
  outputs (new tt) [lit "see http:/"; lit "/x.com/y now"]
  = [lit "see http:/"; lit "/x.com/y now"]
  /\ has_url (List.concat (outputs (new tt) [lit "see http:/"; lit "/x.com/y now"]))
     = true.
Proof. split; reflexivity. Qed.

(** C2.  Filtering ["A(B"] and then ["C)D"] on one engine that starts in the
    Speaking state (attribute absent, or [False]) returns ["A"] and then
    ["D"]; after the first call the engine is Suppressing. *)
Theorem bracket_span_crosses_fragment_boundary (C : Type) (c : C) :
  let fresh := new c in
  let speaking := {| conf := c; _in_brackets := Some false |} in
  snd (filter_fragments fresh [Some (lit "A(B"); Some (lit "C)D")])
  = [Some (lit "A"); Some (lit "D")]
  /\ snd (filter_fragments speaking [Some (lit "A(B"); Some (lit "C)D")])
     = [Some (lit "A"); Some (lit "D")]
  /\ _in_brackets (fst (_filter_stream_text fresh (Some (lit "A(B"))))
     = Some true
  /\ _in_brackets (fst (_filter_stream_text speaking (Some (lit "A(B"))))
     = Some true.
Proof. repeat split. Qed.

Lemma close_not_open (c : char) : is_close c = true -> is_open c = false.
Proof.
  intros H. destruct (is_open c) eqn:E; [|reflexivity].
  apply open_not_close in E. congruence.
Qed.

(** C3, as amended.  In the Speaking state a closing bracket is dropped and
    the filter stays in the Speaking state. *)
Theorem closing_bracket_keeps_speaking (st : scan) (c : char) :
  in_brackets st = false -> is_close c = true ->
  in_brackets (scan_char st c) = false
  /\ filtered_chars (scan_char st c) = filtered_chars st.
Proof.
  intros Hs Hc. unfold scan_char.
  rewrite (close_not_open c Hc), Hc. split; reflexivity.
Qed.

Lemma closing_bracket_keeps_speaking_witness :
  in_brackets (scan_char {| in_brackets := false; filtered_chars := lit "A" |}
                         65289%N) = false
  /\ filtered_chars
       (scan_char {| in_brackets := false; filtered_chars := lit "A" |}
                  65289%N) = lit "A".
Proof.
  apply (closing_bracket_keeps_speaking
           {| in_brackets := false; filtered_chars := lit "A" |} 65289%N);
    reflexivity.
Defined.

(** C3 as stated fails: scanning [")"] in the Speaking state does not lead
    to the Suppressing state. *)
Lemma closing_bracket_does_not_suppress :
  in_brackets (scan_char {| in_brackets := false; filtered_chars := [] |} 41%N)
  <> true
  /\ _in_brackets (fst (_filter_stream_text (new tt) (Some (lit ")"))))
     <> Some true
  /\ snd (filter_fragments (new tt) [Some (lit ")"); Some (lit "B")])
     = [Some []; Some (lit "B")].
Proof. repeat split; discriminate. Qed.

(** The exception channel is live: a true value that is no string makes
    the loop raise, after the attribute was created. *)
Example filter_raises_on_integer :
  _filter_stream_text_any (new tt) (PyInt 5)
  = ({| conf := tt; _in_brackets := Some false |}, Raise TypeError)
  /\ _filter_stream_text_any (new tt) (PyInt 0) = (new tt, Return (PyInt 0)).
Proof. split; reflexivity. Qed.

Lemma filter_any_on_string {C : Type} (self : TTS C) (t : str) :
  _filter_stream_text_any self (PyStr t)
  = (fst (_filter_stream_text self (Some t)),
     Return (PyStr (text_of (snd (_filter_stream_text self (Some t)))))).
Proof.
  destruct t as [|c t]; [reflexivity|].
  unfold _filter_stream_text_any, _filter_stream_text.
  cbn [py_truth falsy negb py_iter fst snd text_of].
  destruct self as [cf [b|]]; reflexivity.
Qed.

(** C4, as amended.  Called with a string or with [None], the filter
    returns and does not raise: for [None] it returns [None], for the empty
    string the empty string, in both cases leaving the engine as it was, and
    for every string a string, the one [_filter_stream_text] computes, with
    the same state afterwards. *)
Theorem filter_returns_on_strings_and_none (C : Type) (self : TTS C) :
  _filter_stream_text_any self PyNone = (self, Return PyNone)
  /\ _filter_stream_text_any self (PyStr []) = (self, Return (PyStr []))
  /\ (forall t : str, exists out : str,
        _filter_stream_text_any self (PyStr t)
        = (fst (_filter_stream_text self (Some t)), Return (PyStr out))
        /\ snd (_filter_stream_text self (Some t)) = Some out)
  /\ _filter_stream_text self None = (self, None)
  /\ _filter_stream_text self (Some []) = (self, Some []).
Proof.
  split; [reflexivity|]. split; [reflexivity|].
  split; [|split; reflexivity].
  intros t. destruct (filter_text self t) as (E & _).
  exists (re_sub_url (emitted (suppressing self) t)).
  split; [|exact E].
  rewrite filter_any_on_string, E. reflexivity.
Qed.

(** C4 as stated fails: for [None] the filter returns [None], not the empty
    string. *)
Lemma filter_none_is_not_empty_string :
  snd (_filter_stream_text (new tt) None) = None
  /\ snd (_filter_stream_text (new tt) None) <> Some []
  /\ snd (_filter_stream_text_any (new tt) PyNone) = Return PyNone
  /\ snd (_filter_stream_text_any (new tt) PyNone) <> Return (PyStr []).
Proof. repeat split; discriminate. Qed.

(** C5.  Once a fragment has left the engine Suppressing, every later
    fragment without a closing bracket yields the empty string, and the
    engine stays Suppressing. *)
Theorem unmatched_opening_bracket_silences_stream
  (C : Type) (self : TTS C) (first : str) (later : list str) :
  let self1 := fst (_filter_stream_text self (Some first)) in
  suppressing self1 = true ->
  (forall f c, In f later -> In c f -> is_close c = false) ->
  outputs self1 later = map (fun _ => []) later
  /\ suppressing (after self1 later) = true.
Proof. intros self1 Hs Hno. now apply outputs_suppressed. Qed.

Lemma unmatched_opening_bracket_silences_stream_witness :
  snd (_filter_stream_text (new tt) (Some (lit "A(B"))) = Some (lit "A")
  /\ outputs (fst (_filter_stream_text (new tt) (Some (lit "A(B"))))
       [lit "C"; lit "D (e"; lit "http://x"]
     = [[]; []; []]
  /\ suppressing
       (after (fst (_filter_stream_text (new tt) (Some (lit "A(B"))))
          [lit "C"; lit "D (e"; lit "http://x"]) = true.
Proof.
  split; [reflexivity|].
  apply (unmatched_opening_bracket_silences_stream unit (new tt) (lit "A(B")
           [lit "C"; lit "D (e"; lit "http://x"]).
  - reflexivity.
  - intros f c Hf Hc. simpl in Hf.
    repeat (destruct Hf as [<- | Hf];
            [simpl in Hc;
             repeat (destruct Hc as [<- | Hc]; [reflexivity|]);
             contradiction|]).
    contradiction.
Defined.

(** C7, as amended.  In the Speaking state, a string without round brackets
    and without a match of [https?://\S+] is returned unchanged, and the
    engine stays in the Speaking state. *)
Theorem filter_fixes_filtered_text (C : Type) (self : TTS C) (t : str) :
  suppressing self = false ->
  (forall c, In c t -> is_open c = false /\ is_close c = false) ->
  has_url t = false ->
  snd (_filter_stream_text self (Some t)) = Some t
  /\ suppressing (fst (_filter_stream_text self (Some t))) = false.
Proof.
  intros Hs Hb Hu.
  destruct (filter_text self t) as (-> & -> & _).
  rewrite Hs.
  destruct (emitted_no_bracket t Hb) as [-> ->].
  split; [|reflexivity].
  f_equal. apply occurs_none_delete, Hu.
Qed.

Lemma filter_fixes_filtered_text_witness :
  snd (_filter_stream_text (new tt) (Some (lit "see  now")))
  = Some (lit "see  now")
  /\ suppressing (fst (_filter_stream_text (new tt) (Some (lit "see  now"))))
     = false.
Proof.
  apply (filter_fixes_filtered_text unit (new tt) (lit "see  now")).
  - reflexivity.
  - intros c Hc. simpl in Hc.
    repeat (destruct Hc as [<- | Hc]; [split; reflexivity|]).
    contradiction.
  - reflexivity.
Defined.

(** C7 as stated fails: the output ["A"] of a first call, free of brackets
    and URLs, is not returned unchanged by the next call on the same
    engine. *)
Lemma filtered_text_is_silenced_when_suppressing :
  let self1 := fst (_filter_stream_text (new tt) (Some (lit "A(B"))) in
  snd (_filter_stream_text (new tt) (Some (lit "A(B"))) = Some (lit "A")
  /\ snd (_filter_stream_text self1 (Some (lit "A"))) = Some []
  /\ snd (_filter_stream_text self1 (Some (lit "A"))) <> Some (lit "A").
Proof. repeat split; discriminate. Qed.

(** ** The SiliconFlow engine *)

Section SiliconFlowFacts.

Import SiliconFlowTTS.

Lemma cleaned_text_nothing_to_delete (s : str) :
  has_url s = false ->
  contains (lit "()") s = false -> contains fullwidth_parens s = false ->
  contains (lit "[]") s = false -> contains lenticular_brackets s = false ->
  cleaned_text s = s.
Proof.
  intros Hu H1 H2 H3 H4. unfold cleaned_text, replace_empty, re_sub_url.
  rewrite (occurs_none_delete _ _ Hu).
  rewrite (occurs_none_delete _ _ H1).
  rewrite (occurs_none_delete _ _ H2).
  rewrite (occurs_none_delete _ _ H3).
  apply (occurs_none_delete _ _ H4).
Qed.

Lemma cleaned_text_blank (s : str) :
  Forall (fun c => isspace c = true) s -> cleaned_text s = s.
Proof.
  intros H.
  apply cleaned_text_nothing_to_delete; apply occurs_blank; try exact H;
    intros w t Hw;
    [ apply url_match_space, Hw
    | apply literal_match_space; [reflexivity | exact Hw] .. ].
Qed.

(** The engine returns before any effect when the cleaned text is blank. *)
Lemma generate_audio_blank (self : SiliconFlowTTS) (t : str)
  (file_name_no_ext : option str) (w : world) :
  strip t = [] ->
  generate_audio self (Some t) file_name_no_ext w
  = ([Log WARNING], Return []).
Proof.
  intros H. unfold generate_audio.
  rewrite (cleaned_text_blank t (strip_nil t H)), H.
  unfold str_eqb. destruct (list_eq_dec N.eq_dec [] []); [|congruence].
  reflexivity.
Qed.

Lemma generate_audio_contains_failures (self : SiliconFlowTTS)
  (text : option str) (file_name_no_ext : option str) (w : world)
  (ev : event) :
  In ev (fst (generate_audio self text file_name_no_ext w)) ->
  backend_failure ev = true ->
  snd (generate_audio self text file_name_no_ext w) = Return [].
Proof.
  unfold generate_audio. run_effects.
  split_cases; cbv beta iota zeta; cbn [fst snd app In];
    intros Hin Hf;
    repeat match goal with
           | H : _ \/ _ |- _ => destruct H as [<- | H]
           | H : False |- _ => destruct H
           end;
    cbn [backend_failure] in Hf; try congruence;
    match goal with
    | H : is_Exception (HTTPError _) = false |- _ => discriminate H
    end.
Qed.

Lemma generate_audio_payload (self : SiliconFlowTTS) (text : str)
  (file_name_no_ext : option str) (w : world) (t : str) :
  In t (payload_texts (fst (generate_audio self (Some text) file_name_no_ext w)))
  -> t = cleaned_text text.
Proof.
  unfold generate_audio. run_effects.
  split_cases; cbv beta iota zeta; cbn [fst snd app payload_texts In p_input];
    intros Hin;
    repeat match goal with
           | H : _ \/ _ |- _ => destruct H as [<- | H]
           | H : False |- _ => destruct H
           end;
    reflexivity.
Qed.

End SiliconFlowFacts.

(** ** Properties of the dispatcher and of the SiliconFlow engine *)

(** C6, as amended.  When the filtered text is blank, the dispatcher still
    hands it to the engine's [generate_audio]; the SiliconFlow engine then
    logs the skip and returns the empty string at once: no directory is
    created, no request is sent and no cache file is opened or written. *)
Theorem blank_filtered_text_makes_no_request
  (self : TTS SiliconFlowTTS.SiliconFlowTTS) (text : str)
  (file_name_no_ext : option str) (w : world) :
  let safe_text := text_of (snd (_filter_stream_text self (Some text))) in
  let run := snd (async_generate_audio self (Some text) file_name_no_ext) w in
  strip safe_text = [] ->
  run = ([ToThread (Some safe_text) file_name_no_ext; Log WARNING], Return [])
  /\ existsb touches_outside (fst run) = false.
Proof.
  intros safe_text run H.
  assert (E : run = ([ToThread (Some safe_text) file_name_no_ext; Log WARNING],
                     Return [])).
  { subst run safe_text. unfold async_generate_audio.
    destruct (filter_text self text) as (Ho & _ & _).
    destruct (_filter_stream_text self (Some text)) as [self1 out].
    cbn [fst snd] in *. subst out. cbn [text_of] in H.
    cbn [snd]. unfold bind, emit.
    cbn [generate_audio SiliconFlowTTS.engine].
    rewrite (generate_audio_blank _ _ _ _ H). reflexivity. }
  rewrite E. split; reflexivity.
Qed.

Lemma blank_filtered_text_makes_no_request_witness :
  snd (async_generate_audio (new example_engine)
         (Some (lit "(only link content)")) None) quiet_world
  = ([ToThread (Some []) None; Log WARNING], Return [])
  /\ existsb touches_outside
       (fst (snd (async_generate_audio (new example_engine)
                    (Some (lit "(only link content)")) None) quiet_world))
     = false.
Proof.
  apply (blank_filtered_text_makes_no_request (new example_engine)
           (lit "(only link content)") None quiet_world).
  reflexivity.
Defined.

(** C6 as stated fails: for ["(only link content)"], whose filtered form is
    empty, the dispatcher does invoke the engine's [generate_audio]. *)
Lemma blank_filtered_text_still_reaches_engine :
  snd (_filter_stream_text (new example_engine)
         (Some (lit "(only link content)"))) = Some []
  /\ In (ToThread (Some []) None)
        (fst (snd (async_generate_audio (new example_engine)
                     (Some (lit "(only link content)")) None) quiet_world)).
Proof. split; [reflexivity | vm_compute; left; reflexivity]. Qed.

(** C8, as amended.  Whenever the trace of a dispatch holds a failure of
    the statements inside the [try] block of [generate_audio] (the request
    raised, the response status is one that [raise_for_status] rejects,
    that is 400 to 599, or opening or writing the cache file raised, the
    errors being of classes derived from [Exception]), the dispatch returns
    the empty string; it does not raise. *)
Theorem backend_failures_give_empty_result
  (self : TTS SiliconFlowTTS.SiliconFlowTTS) (text : option str)
  (file_name_no_ext : option str) (w : world) (ev : event) :
  let run := snd (async_generate_audio self text file_name_no_ext) w in
  In ev (fst run) -> backend_failure ev = true -> snd run = Return [].
Proof.
  unfold async_generate_audio.
  destruct (_filter_stream_text self text) as [self1 safe_text].
  cbn [snd generate_audio SiliconFlowTTS.engine]. unfold bind, emit.
  pose proof (generate_audio_contains_failures (conf self1) safe_text
                file_name_no_ext w ev) as G.
  destruct (SiliconFlowTTS.generate_audio (conf self1) safe_text
              file_name_no_ext w) as [trace res].
  cbn [fst snd app In] in *.
  intros [<- | Hin] Hf; [discriminate Hf | exact (G Hin Hf)].
Qed.

Lemma backend_failures_give_empty_result_witness :
  snd (snd (async_generate_audio (new example_engine) (Some (lit "hello"))
              None) offline_world) = Return []
  /\ snd (snd (async_generate_audio (new example_engine) (Some (lit "hello"))
                 None) overloaded_world) = Return []
  /\ snd (snd (async_generate_audio (new example_engine) (Some (lit "hello"))
                 None) full_disk_world) = Return [].
Proof.
  split; [|split].
  - apply (backend_failures_give_empty_result (new example_engine)
             (Some (lit "hello")) None offline_world
             (nth 1 (fst (snd (async_generate_audio (new example_engine)
                                 (Some (lit "hello")) None) offline_world))
                  (Log DEBUG)));
      [vm_compute; right; left; reflexivity | reflexivity].
  - apply (backend_failures_give_empty_result (new example_engine)
             (Some (lit "hello")) None overloaded_world
             (nth 1 (fst (snd (async_generate_audio (new example_engine)
                                 (Some (lit "hello")) None) overloaded_world))
                  (Log DEBUG)));
      [vm_compute; right; left; reflexivity | reflexivity].
  - apply (backend_failures_give_empty_result (new example_engine)
             (Some (lit "hello")) None full_disk_world
             (nth 3 (fst (snd (async_generate_audio (new example_engine)
                                 (Some (lit "hello")) None) full_disk_world))
                  (Log DEBUG)));
      [vm_compute; do 3 right; left; reflexivity | reflexivity].
Defined.

(** C8 as stated fails: an error of [os.makedirs], raised while the cache
    file name is made before the [try] block, leaves the dispatch as an
    exception; and a response with status 304 is no failure for
    [raise_for_status], so its body is written and the path returned. *)
Lemma makedirs_error_and_status_304_escape :
  snd (snd (async_generate_audio (new example_engine) (Some (lit "hello"))
              None)
         (no_cache_dir_world (OSError "read-only file system")))
  = Raise (OSError "read-only file system")
  /\ snd (snd (async_generate_audio (new example_engine)
                 (Some (lit "hello")) None)
            (world_with (Return {| status_code := 304; content := [] |})
                        (Return tt)))
     = Return (lit "cache/temp.mp3").
Proof. split; reflexivity. Qed.





(** ** The RAG agent *)

Section RAGFacts.

Import RAGAgent.

Lemma retrieve_context_unavailable (self : RAGAgent) (query : str) (k : Z)
  (w : world) :
  retrieval_unavailable self query k ->
  _retrieve_context self query k w = ([], Return [])
  \/ _retrieve_context self query k w = ([Log ERROR], Return []).
Proof.
  unfold retrieval_unavailable, _retrieve_context.
  destruct (vector_store self) as [vs|]; [|now left].
  intros [Ht | [Hs | (e & Hs & He)]].
  - rewrite Ht. now left.
  - destruct (truth vs); [|now left].
    run_effects. rewrite Hs. now left.
  - destruct (truth vs); [|now left].
    run_effects. rewrite Hs, He. now right.
Qed.

Lemma init_without_store (super_init : M unit) (vector_db_path : str)
  (w : world) (t0 : list event) (e : exn) :
  super_init w = (t0, Return tt) ->
  huggingface_embeddings w = Raise e
  \/ (huggingface_embeddings w = Return tt
      /\ chroma_open w vector_db_path = Raise e) ->
  is_Exception e = true ->
  __init__ super_init vector_db_path w
  = (t0 ++ [Log INFO; Log ERROR], Return {| vector_store := None |}).
Proof.
  intros H0 H He. unfold __init__. run_effects. rewrite H0.
  destruct H as [H | [H1 H2]].
  - rewrite H, He. reflexivity.
  - rewrite H1, H2, He. reflexivity.
Qed.

Lemma to_messages_without_context (BatchInput : Type)
  (super_to_messages : BatchInput -> M (list message))
  (_to_text_prompt : BatchInput -> M str)
  (self : RAGAgent) (input_data : BatchInput) (w : world)
  (t1 t2 : list event) (messages : list message) (user_text : str) :
  super_to_messages input_data w = (t1, Return messages) ->
  _to_text_prompt input_data w = (t2, Return user_text) ->
  (snd (datetime_now w) < 7)%nat ->
  retrieval_unavailable self user_text 3 ->
  snd (_to_messages BatchInput super_to_messages _to_text_prompt self
         input_data w) = Return messages.
Proof.
  intros H1 H2 Hd Hu. unfold _to_messages.
  unfold bind at 1. rewrite H1.
  unfold bind at 1. rewrite H2.
  unfold bind at 1. unfold ask at 1.
  unfold bind at 1.
  destruct (nth_error week_days (snd (datetime_now w))) as [day|] eqn:E.
  2:{ apply nth_error_None in E. simpl in E. lia. }
  unfold ret at 1.
  destruct (negb (falsy user_text) && store_truthy self).
  2:{ reflexivity. }
  unfold bind at 1, logger, emit.
  unfold bind at 1.
  destruct (retrieve_context_unavailable self user_text 3 w Hu) as [-> | ->];
    reflexivity.
Qed.

End RAGFacts.

(** With documents at hand the context is built and the user's message is
    rewritten, so the statements about the unavailable case are not
    vacuous. *)
Example informed_agent_adds_context :
  snd (RAGAgent._retrieve_context informed_agent (lit "when is algebra") 3
         quiet_world)
  = Return ([36164; 26009]%N ++ lit "1: Monday: algebra" ++ [10; 10]%N
            ++ [36164; 26009]%N ++ lit "2: Tuesday: physics")
  /\ snd (RAGAgent._to_messages str base_messages base_text_prompt
            informed_agent (lit "when is algebra") quiet_world)
     <> Return [{| RAGAgent.role := lit "user";
                   RAGAgent.msg_content :=
                     RAGAgent.ContentStr (lit "when is algebra") |}].
Proof. split; [reflexivity | vm_compute; discriminate]. Qed.

(** ** Properties of the RAG agent *)

(** C9.  When retrieval is unavailable, [_retrieve_context] returns the
    empty string and does not raise; [__init__] leaves the agent without a
    store when loading the embeddings or the database fails; and
    [_to_messages] then returns the message list of the base class
    unchanged. *)
Theorem unavailable_retrieval_means_no_context :
  (forall (self : RAGAgent.RAGAgent) (query : str) (k : Z) (w : world),
      retrieval_unavailable self query k ->
      snd (RAGAgent._retrieve_context self query k w) = Return [])
  /\ (forall (super_init : M unit) (vector_db_path : str) (w : world)
             (t0 : list event) (e : exn),
         super_init w = (t0, Return tt) ->
         huggingface_embeddings w = Raise e
         \/ (huggingface_embeddings w = Return tt
             /\ chroma_open w vector_db_path = Raise e) ->
         is_Exception e = true ->
         snd (RAGAgent.__init__ super_init vector_db_path w)
         = Return {| RAGAgent.vector_store := None |})
  /\ (forall (BatchInput : Type)
             (super_to_messages : BatchInput -> M (list RAGAgent.message))
             (_to_text_prompt : BatchInput -> M str)
             (self : RAGAgent.RAGAgent) (input_data : BatchInput) (w : world)
             (t1 t2 : list event) (messages : list RAGAgent.message)
             (user_text : str),
         super_to_messages input_data w = (t1, Return messages) ->
         _to_text_prompt input_data w = (t2, Return user_text) ->
         (snd (datetime_now w) < 7)%nat ->
         retrieval_unavailable self user_text 3 ->
         snd (RAGAgent._to_messages BatchInput super_to_messages
                _to_text_prompt self input_data w) = Return messages).
Proof.
  split; [|split].
  - intros self query k w H.
    destruct (retrieve_context_unavailable self query k w H) as [-> | ->];
      reflexivity.
  - intros super_init path w t0 e H0 H He.
    now rewrite (init_without_store super_init path w t0 e H0 H He).
  - intros. eapply to_messages_without_context; eassumption.
Qed.

Lemma unavailable_retrieval_means_no_context_witness :
  snd (RAGAgent._retrieve_context agent_without_store (lit "when is algebra")
         3 quiet_world) = Return []
  /\ snd (RAGAgent._retrieve_context failing_agent (lit "when is algebra")
            3 quiet_world) = Return []
  /\ snd (RAGAgent._retrieve_context empty_handed_agent
            (lit "when is algebra") 3 quiet_world) = Return []
  /\ snd (RAGAgent.__init__ (ret tt) (lit "./chroma_db") quiet_world)
     = Return agent_without_store
  /\ snd (RAGAgent._to_messages str base_messages base_text_prompt
            failing_agent (lit "when is algebra") quiet_world)
     = Return [{| RAGAgent.role := lit "user";
                  RAGAgent.msg_content :=
                    RAGAgent.ContentStr (lit "when is algebra") |}].
Proof.
  destruct unavailable_retrieval_means_no_context as (R & I & T).
  split; [|split; [|split; [|split]]].
  - apply R. exact Logic.I.
  - apply R. right; right.
    exists (OtherException "ChromaError"). split; reflexivity.
  - apply R. right; left. reflexivity.
  - apply (I (ret tt) (lit "./chroma_db") quiet_world []
             (OSError "no database")).
    + reflexivity.
    + right. split; reflexivity.
    + reflexivity.
  - apply (T str base_messages base_text_prompt failing_agent
             (lit "when is algebra") quiet_world [] []
             [{| RAGAgent.role := lit "user";
                 RAGAgent.msg_content :=
                   RAGAgent.ContentStr (lit "when is algebra") |}]
             (lit "when is algebra")).
    + reflexivity.
    + reflexivity.
    + simpl. lia.
    + right; right.
      exists (OtherException "ChromaError"). split; reflexivity.
Defined.

(** ** Further properties of the stream text filter *)

Section MoreScanFacts.

Lemma state_after_span_open (b : bool) (s pre : str) :
  state_after (span_open b pre) s = span_open b (pre ++ s).
Proof.
  revert pre; induction s as [|c s IH]; intros pre; simpl.
  - now rewrite app_nil_r.
  - replace (pre ++ c :: s) with ((pre ++ [c]) ++ s)
      by (now rewrite <- app_assoc).
    rewrite <- IH, span_open_snoc.
    destruct (is_open c); [reflexivity|].
    destruct (is_close c); reflexivity.
Qed.

Lemma after_state {C : Type} (frags : list str) (self : TTS C) :
  suppressing (after self frags)
  = state_after (suppressing self) (List.concat frags).
Proof.
  revert self; induction frags as [|f rest IH]; intros self.
  - reflexivity.
  - rewrite after_cons, IH.
    destruct (filter_text self f) as (_ & -> & _).
    cbn [List.concat]. now rewrite state_after_app.
Qed.

Lemma emitted_subseq (s : str) (b : bool) : subseq (emitted b s) s.
Proof.
  revert b; induction s as [|c s IH]; intros b; simpl; [constructor|].
  destruct (is_open c); [constructor; apply IH|].
  destruct (is_close c); [constructor; apply IH|].
  destruct b; constructor; apply IH.
Qed.

Lemma emitted_no_round_bracket (s : str) (b : bool) :
  Forall (fun c => is_bracket c = false) (emitted b s).
Proof.
  revert b; induction s as [|c s IH]; intros b; simpl; [constructor|].
  destruct (is_open c) eqn:Ho; [apply IH|].
  destruct (is_close c) eqn:Hc; [apply IH|].
  destruct b; [apply IH|].
  constructor; [unfold is_bracket; now rewrite Ho, Hc | apply IH].
Qed.

Lemma subseq_Forall (P : char -> Prop) (a b : str) :
  subseq a b -> Forall P b -> Forall P a.
Proof.
  induction 1 as [|c l1 l2 _ IH|c l1 l2 _ IH]; intros H.
  - constructor.
  - inversion H; auto.
  - inversion H; subst. constructor; auto.
Qed.

Lemma subseq_trans (a b c : str) : subseq a b -> subseq b c -> subseq a c.
Proof.
  intros H1 H2; revert a H1.
  induction H2 as [|x l1 l2 _ IH|x l1 l2 _ IH]; intros a H1.
  - exact H1.
  - constructor. now apply IH.
  - inversion H1; subst; constructor; now apply IH.
Qed.

Lemma skip_run_keeps_blanks (s : str) :
  filter isspace (skipn (span_len nonspace s) s) = filter isspace s.
Proof.
  induction s as [|c s IH]; simpl; [reflexivity|].
  unfold nonspace at 1.
  destruct (isspace c) eqn:E; simpl; [now rewrite E | exact IH].
Qed.

Lemma re_sub_url_keeps_blanks_bounded (n : nat) (s : str) :
  (List.length s <= n)%nat ->
  filter isspace (re_sub_url s) = filter isspace s.
Proof.
  revert s; induction n as [|n IH]; intros s Hn.
  - destruct s; [reflexivity | simpl in Hn; lia].
  - destruct s as [|c s]; [reflexivity|].
    simpl in Hn.
    unfold re_sub_url, delete_matches.
    cbn [delete_from].
    destruct (url_match (c :: s)) as [[|k]|] eqn:E.
    + cbn [filter].
      change (delete_from url_match 0 s) with (re_sub_url s).
      rewrite (IH s) by lia. reflexivity.
    + rewrite delete_from_skipn.
      change (delete_matches url_match (skipn k s))
        with (re_sub_url (skipn (S k) (c :: s))).
      rewrite IH by (cbn [skipn]; rewrite length_skipn; lia).
      apply url_match_Some in E. destruct E as [_ ->].
      apply skip_run_keeps_blanks.
    + cbn [filter].
      change (delete_from url_match 0 s) with (re_sub_url s).
      rewrite (IH s) by lia. reflexivity.
Qed.

Lemma re_sub_url_keeps_blanks (s : str) :
  filter isspace (re_sub_url s) = filter isspace s.
Proof. apply (re_sub_url_keeps_blanks_bounded (List.length s)). lia. Qed.

End MoreScanFacts.

(** X1.  After any sequence of fragments the engine is Suppressing exactly
    when the last round bracket of the whole text so far is an opening one
    (without any bracket the state it started in stays): the state does not
    depend on where the text was cut into fragments. *)
Theorem filter_state_follows_last_bracket
  (C : Type) (self : TTS C) (frags : list str) :
  suppressing (after self frags)
  = span_open (suppressing self) (List.concat frags).
Proof.
  rewrite after_state.
  apply (state_after_span_open (suppressing self) (List.concat frags) []).
Qed.

(** X2.  Whatever the state and the fragments, no round bracket, ASCII or
    full-width, is in the text the filter returns. *)
Theorem filter_output_has_no_round_bracket
  (C : Type) (self : TTS C) (frags : list str) :
  Forall (fun c => is_bracket c = false) (List.concat (outputs self frags)).
Proof.
  apply (subseq_Forall _ _ _ (outputs_subseq frags self)).
  apply emitted_no_round_bracket.
Qed.

(** X3.  One call only deletes characters: the returned text is the input
    with some characters left out, in the same order. *)
Theorem filter_only_deletes (C : Type) (self : TTS C) (t : str) :
  subseq (text_of (snd (_filter_stream_text self (Some t)))) t.
Proof.
  destruct (filter_text self t) as (-> & _ & _). cbn [text_of].
  apply (subseq_trans _ (emitted (suppressing self) t)).
  - apply delete_from_subseq.
  - apply emitted_subseq.
Qed.

(** X4.  The URL pass never removes white space: the blanks of the returned
    text are the blanks of the input that stand outside the bracket spans. *)
Theorem filter_keeps_blanks_outside_brackets
  (C : Type) (self : TTS C) (t : str) :
  filter isspace (text_of (snd (_filter_stream_text self (Some t))))
  = filter isspace (outside (suppressing self) t).
Proof.
  destruct (filter_text self t) as (-> & _ & _). cbn [text_of].
  rewrite outside_emitted. apply re_sub_url_keeps_blanks.
Qed.

(** X5.  When a call starts in the Speaking state and ends in it, filtering
    its output once more on the same engine returns that output unchanged
    and leaves the engine Speaking. *)
Theorem filter_is_idempotent_when_speaking
  (C : Type) (self : TTS C) (t : str) :
  let first := _filter_stream_text self (Some t) in
  suppressing self = false ->
  suppressing (fst first) = false ->
  snd (_filter_stream_text (fst first) (snd first)) = snd first
  /\ suppressing (fst (_filter_stream_text (fst first) (snd first))) = false.
Proof.
  intros first Hs He. subst first.
  destruct (filter_text self t) as (Eo & _ & _).
  rewrite Eo. set (out := re_sub_url (emitted (suppressing self) t)).
  destruct (filter_text (fst (_filter_stream_text self (Some t))) out)
    as (-> & -> & _).
  rewrite He.
  assert (Hb : forall c, In c out -> is_open c = false /\ is_close c = false).
  { intros c Hc.
    assert (F : Forall (fun c => is_bracket c = false) out).
    { apply (subseq_Forall _ _ _ (delete_from_subseq url_match _ 0)).
      apply emitted_no_round_bracket. }
    rewrite Forall_forall in F. apply F in Hc.
    now apply orb_false_iff in Hc. }
  destruct (emitted_no_bracket out Hb) as [-> ->].
  split; [|reflexivity].
  f_equal. apply occurs_none_delete. apply has_url_re_sub.
Qed.

Lemma filter_is_idempotent_when_speaking_witness :
  snd (_filter_stream_text (new tt) (Some (lit "A(B)C http://x.com d")))
  = Some (lit "AC  d")
  /\ snd (_filter_stream_text
            (fst (_filter_stream_text (new tt)
                    (Some (lit "A(B)C http://x.com d"))))
            (snd (_filter_stream_text (new tt)
                    (Some (lit "A(B)C http://x.com d")))))
     = snd (_filter_stream_text (new tt) (Some (lit "A(B)C http://x.com d"))).
Proof.
  split; [reflexivity|].
  apply (filter_is_idempotent_when_speaking unit (new tt)
           (lit "A(B)C http://x.com d")); reflexivity.
Defined.

(** ** Further properties of the SiliconFlow engine and the dispatcher *)

Section MoreSiliconFlowFacts.

Import SiliconFlowTTS.

Ltac find_event :=
  cbn [In app fst]; repeat first [left; reflexivity | right].

Lemma generate_audio_result_written (self : SiliconFlowTTS)
  (text : option str) (file_name_no_ext : option str) (w : world) (v : str) :
  snd (generate_audio self text file_name_no_ext w) = Return v ->
  v <> [] ->
  exists url json headers r,
    In (HttpRequest "POST" url json headers (Return r))
       (fst (generate_audio self text file_name_no_ext w))
    /\ ((400 <=? status_code r) && (status_code r <? 600))%Z = false
    /\ In (OpenWb v (Return tt))
          (fst (generate_audio self text file_name_no_ext w))
    /\ In (Write v (content r) (Return tt))
          (fst (generate_audio self text file_name_no_ext w)).
Proof.
  unfold generate_audio. run_effects.
  split_cases; cbv beta iota zeta; cbn [fst snd app];
    intros Hr Hv; try discriminate Hr;
    injection Hr as <-; try (now contradiction Hv);
    repeat match goal with u : unit |- _ => destruct u end;
    do 4 eexists; (split; [find_event|]);
    (split; [eassumption|]); split; find_event.
Qed.

Lemma generate_audio_without_url (self : SiliconFlowTTS)
  (text : option str) (file_name_no_ext : option str) (w : world) :
  api_url self = None ->
  existsb is_request_or_write
    (fst (generate_audio self text file_name_no_ext w)) = false
  /\ forall v, snd (generate_audio self text file_name_no_ext w) = Return v ->
               v = [].
Proof.
  intros Hu. unfold generate_audio. run_effects. rewrite Hu.
  split_cases; cbv beta iota zeta; cbn [fst snd app existsb];
    (split; [reflexivity|]); intros v Hr; try discriminate Hr;
    now injection Hr as <-.
Qed.

Lemma generate_audio_cache_failure (self : SiliconFlowTTS) (t : str)
  (file_name_no_ext : option str) (w : world) (e : exn) :
  strip (cleaned_text t) <> [] ->
  os_path_exists w (lit "cache") = false ->
  os_makedirs w (lit "cache") = Raise e ->
  snd (generate_audio self (Some t) file_name_no_ext w) = Raise e
  /\ existsb is_request_or_write
       (fst (generate_audio self (Some t) file_name_no_ext w)) = false.
Proof.
  intros Ht He Hm. unfold generate_audio. run_effects.
  destruct (strip (cleaned_text t)) as [|c r] eqn:E; [contradiction|].
  cbn [falsy].
  destruct (negb (str_eqb (c :: r) (strip t)));
    cbv beta iota zeta; rewrite He; cbn [negb]; rewrite Hm;
    split; reflexivity.
Qed.

Lemma delete_from_Forall (P : char -> Prop) (m : str -> option nat)
  (s : str) (k : nat) :
  Forall P s -> Forall P (delete_from m k s).
Proof. apply subseq_Forall, delete_from_subseq. Qed.

Lemma cleaned_text_Forall (P : char -> Prop) (s : str) :
  Forall P s -> Forall P (cleaned_text s).
Proof.
  intros H. unfold cleaned_text, replace_empty, re_sub_url, delete_matches.
  now repeat apply delete_from_Forall.
Qed.

End MoreSiliconFlowFacts.

(** X6.  A non-empty result of [SiliconFlowTTS.generate_audio] always names
    a file that was opened and written in this call, with the body of a
    response to the one request whose status [raise_for_status] accepts. *)
Theorem nonempty_result_names_written_file
  (self : SiliconFlowTTS.SiliconFlowTTS) (text : option str)
  (file_name_no_ext : option str) (w : world) (v : str) :
  let run := SiliconFlowTTS.generate_audio self text file_name_no_ext w in
  snd run = Return v ->
  v <> [] ->
  exists url json headers r,
    In (HttpRequest "POST" url json headers (Return r)) (fst run)
    /\ ((400 <=? status_code r) && (status_code r <? 600))%Z = false
    /\ In (OpenWb v (Return tt)) (fst run)
    /\ In (Write v (content r) (Return tt)) (fst run).
Proof. intros run. apply generate_audio_result_written. Qed.

Lemma nonempty_result_names_written_file_witness :
  exists url json headers r,
    In (HttpRequest "POST" url json headers (Return r))
       (fst (SiliconFlowTTS.generate_audio example_engine
               (Some (lit "hello")) (Some (lit "turn7")) quiet_world))
    /\ ((400 <=? status_code r) && (status_code r <? 600))%Z = false
    /\ In (OpenWb (lit "cache/turn7.mp3") (Return tt))
          (fst (SiliconFlowTTS.generate_audio example_engine
                  (Some (lit "hello")) (Some (lit "turn7")) quiet_world))
    /\ In (Write (lit "cache/turn7.mp3") (content r) (Return tt))
          (fst (SiliconFlowTTS.generate_audio example_engine
                  (Some (lit "hello")) (Some (lit "turn7")) quiet_world)).
Proof.
  apply (nonempty_result_names_written_file example_engine
           (Some (lit "hello")) (Some (lit "turn7")) quiet_world
           (lit "cache/turn7.mp3")).
  - reflexivity.
  - discriminate.
Defined.

(** X7.  An engine configured without [api_url] never sends a request and
    never opens or writes a file, and whenever it returns, it returns the
    empty string. *)
Theorem missing_api_url_sends_nothing
  (self : SiliconFlowTTS.SiliconFlowTTS) (text : option str)
  (file_name_no_ext : option str) (w : world) :
  let run := SiliconFlowTTS.generate_audio self text file_name_no_ext w in
  SiliconFlowTTS.api_url self = None ->
  existsb is_request_or_write (fst run) = false
  /\ forall v, snd run = Return v -> v = [].
Proof. intros run. apply generate_audio_without_url. Qed.

Lemma missing_api_url_sends_nothing_witness :
  let self :=
    {| SiliconFlowTTS.api_url := None;
       SiliconFlowTTS.api_key := lit "key";
       SiliconFlowTTS.default_model := PyNone;
       SiliconFlowTTS.default_voice := PyNone;
       SiliconFlowTTS.sample_rate := PyInt 32000;
       SiliconFlowTTS.response_format := lit "mp3";
       SiliconFlowTTS.stream := PyBool false;
       SiliconFlowTTS.speed := PyInt 1;
       SiliconFlowTTS.gain := PyInt 0 |} in
  existsb is_request_or_write
    (fst (SiliconFlowTTS.generate_audio self (Some (lit "hello")) None
            quiet_world)) = false
  /\ forall v,
       snd (SiliconFlowTTS.generate_audio self (Some (lit "hello")) None
              quiet_world) = Return v -> v = [].
Proof.
  intros self.
  apply (missing_api_url_sends_nothing self (Some (lit "hello")) None
           quiet_world).
  reflexivity.
Defined.

(** X8.  When the cache directory is missing and [os.makedirs] raises, the
    error leaves [generate_audio] as it is, whatever its class: the
    directory is created before the [try] block.  No request is sent. *)
Theorem cache_directory_failure_propagates
  (self : SiliconFlowTTS.SiliconFlowTTS) (t : str)
  (file_name_no_ext : option str) (w : world) (e : exn) :
  let run := SiliconFlowTTS.generate_audio self (Some t) file_name_no_ext w in
  strip (SiliconFlowTTS.cleaned_text t) <> [] ->
  os_path_exists w (lit "cache") = false ->
  os_makedirs w (lit "cache") = Raise e ->
  snd run = Raise e /\ existsb is_request_or_write (fst run) = false.
Proof. intros run. apply generate_audio_cache_failure. Qed.

Lemma cache_directory_failure_propagates_witness :
  snd (SiliconFlowTTS.generate_audio example_engine (Some (lit "hello")) None
         (no_cache_dir_world (OSError "read-only file system")))
  = Raise (OSError "read-only file system")
  /\ existsb is_request_or_write
       (fst (SiliconFlowTTS.generate_audio example_engine
               (Some (lit "hello")) None
               (no_cache_dir_world (OSError "read-only file system"))))
     = false.
Proof.
  apply (cache_directory_failure_propagates example_engine (lit "hello") None
           (no_cache_dir_world (OSError "read-only file system"))
           (OSError "read-only file system")).
  - vm_compute. discriminate.
  - reflexivity.
  - reflexivity.
Defined.

(** X9.  Dispatching [None] as text with the SiliconFlow engine raises
    [TypeError]: the filter hands [None] on unchanged, leaving its state as
    it was, and the engine's [re.sub] rejects it before any other effect. *)
Theorem dispatching_none_raises_type_error
  (self : TTS SiliconFlowTTS.SiliconFlowTTS) (file_name_no_ext : option str)
  (w : world) :
  fst (async_generate_audio self None file_name_no_ext) = self
  /\ snd (async_generate_audio self None file_name_no_ext) w
     = ([ToThread None file_name_no_ext], Raise TypeError).
Proof. split; reflexivity. Qed.

(** X10.  Whatever the state of the filter, the text of a request that a
    dispatch of a string sends holds no round bracket, ASCII or
    full-width. *)
Theorem dispatched_request_has_no_round_bracket
  (self : TTS SiliconFlowTTS.SiliconFlowTTS) (text : str)
  (file_name_no_ext : option str) (w : world) (t : str) :
  In t (payload_texts
          (fst (snd (async_generate_audio self (Some text) file_name_no_ext)
                  w))) ->
  Forall (fun c => is_bracket c = false) t.
Proof.
  unfold async_generate_audio.
  destruct (filter_text self text) as (Ho & _ & _).
  destruct (_filter_stream_text self (Some text)) as [self1 out].
  cbn [fst snd] in *. subst out.
  cbn [generate_audio SiliconFlowTTS.engine]. unfold bind, emit.
  destruct (SiliconFlowTTS.generate_audio (conf self1)
              (Some (re_sub_url (emitted (suppressing self) text)))
              file_name_no_ext w) as [trace res] eqn:E.
  cbn [fst app payload_texts]. intros Hin.
  assert (Ht : t = SiliconFlowTTS.cleaned_text
                     (re_sub_url (emitted (suppressing self) text))).
  { apply (generate_audio_payload (conf self1) _ file_name_no_ext w).
    now rewrite E. }
  subst t. apply cleaned_text_Forall.
  apply (subseq_Forall _ _ _ (delete_from_subseq url_match _ 0)).
  apply emitted_no_round_bracket.
Qed.

Lemma dispatched_request_has_no_round_bracket_witness :
  payload_texts
    (fst (snd (async_generate_audio (new example_engine)
                 (Some (lit "Hi (aside) there")) None) quiet_world))
  = [lit "Hi  there"]
  /\ Forall (fun c => is_bracket c = false) (lit "Hi  there").
Proof.
  split; [reflexivity|].
  apply (dispatched_request_has_no_round_bracket (new example_engine)
           (lit "Hi (aside) there") None quiet_world (lit "Hi  there")).
  vm_compute. left. reflexivity.
Defined.

(** ** Properties of [remove_file] *)

(** X11.  [remove_file] returns normally whatever the file system does, as
    long as an error of [os.remove] is of a class derived from
    [Exception]. *)
Theorem remove_file_swallows_failures
  (filepath : str) (verbose : bool) (w : RemoveFile.world) :
  (forall e, RemoveFile.os_remove w filepath = Raise e ->
             is_Exception e = true) ->
  snd (RemoveFile.remove_file filepath verbose w) = Return tt.
Proof.
  intros H. unfold RemoveFile.remove_file. run_steps.
  destruct (RemoveFile.path_exists w filepath); [|reflexivity].
  cbn [negb].
  destruct (RemoveFile.os_remove w filepath) as [[]|e] eqn:E;
    destruct verbose; cbv beta iota zeta; rewrite ?E;
    try reflexivity; rewrite (H e eq_refl); reflexivity.
Qed.

Lemma remove_file_swallows_failures_witness :
  RemoveFile.remove_file (lit "cache/turn7.mp3") true
    (removal_world true (Raise (OSError "permission denied")))
  = ([RemoveFile.Logged DEBUG;
      RemoveFile.Removed (lit "cache/turn7.mp3")
        (Raise (OSError "permission denied"));
      RemoveFile.Logged ERROR], Return tt)
  /\ snd (RemoveFile.remove_file (lit "cache/turn7.mp3") true
            (removal_world true (Raise (OSError "permission denied"))))
     = Return tt.
Proof.
  split; [reflexivity|].
  apply (remove_file_swallows_failures (lit "cache/turn7.mp3") true
           (removal_world true (Raise (OSError "permission denied")))).
  intros e [= <-]. reflexivity.
Defined.

(** X12.  For a path that does not exist [remove_file] logs one warning and
    does not call [os.remove], with or without [verbose]. *)
Theorem remove_file_skips_missing_file
  (filepath : str) (verbose : bool) (w : RemoveFile.world) :
  RemoveFile.path_exists w filepath = false ->
  fst (RemoveFile.remove_file filepath verbose w)
  = [RemoveFile.Logged WARNING]
  /\ existsb is_removal (fst (RemoveFile.remove_file filepath verbose w))
     = false.
Proof.
  intros H. unfold RemoveFile.remove_file. run_steps. rewrite H.
  split; reflexivity.
Qed.

Lemma remove_file_skips_missing_file_witness :
  fst (RemoveFile.remove_file (lit "cache/gone.mp3") false
         (removal_world false (Return tt)))
  = [RemoveFile.Logged WARNING]
  /\ existsb is_removal
       (fst (RemoveFile.remove_file (lit "cache/gone.mp3") false
               (removal_world false (Return tt)))) = false.
Proof.
  apply (remove_file_skips_missing_file (lit "cache/gone.mp3") false
           (removal_world false (Return tt))).
  reflexivity.
Defined.

(** ** Properties of the knowledge base build script *)

Section BuildFacts.

Import BuildKnowledgeBase.

Lemma range_from_below (fuel start stop step : nat) (i : nat) :
  In i (range_from fuel start stop step) -> i < stop.
Proof.
  revert start; induction fuel as [|fuel IH]; intros start; simpl;
    [contradiction|].
  destruct (Nat.ltb_spec start stop) as [Hlt|]; [|contradiction].
  intros [<- | Hin]; [exact Hlt | exact (IH _ Hin)].
Qed.

Lemma range_slices_cover {A : Type} (l : list A) (step fuel start : nat) :
  1 <= step -> List.length l - start <= fuel ->
  List.concat (map (fun i => slice l i (i + step))
                   (range_from fuel start (List.length l) step))
  = skipn start l.
Proof.
  intros Hstep. revert start.
  induction fuel as [|fuel IH]; intros start Hfuel; simpl.
  - symmetry. apply skipn_all2. lia.
  - destruct (Nat.ltb_spec start (List.length l)) as [Hlt|Hge].
    + cbn [map List.concat]. rewrite IH by lia.
      unfold slice. replace (start + step - start) with step by lia.
      rewrite (Nat.add_comm start step), <- skipn_skipn.
      apply firstn_skipn.
    + symmetry. apply skipn_all2. lia.
Qed.

Lemma slice_length {A : Type} (l : list A) (i step : nat) :
  i < List.length l -> 1 <= step ->
  1 <= List.length (slice l i (i + step)) <= step.
Proof.
  intros Hi Hs. unfold slice.
  rewrite length_firstn, length_skipn. lia.
Qed.

Lemma sent_batches_app (t1 t2 : list event) :
  sent_batches (t1 ++ t2) = sent_batches t1 ++ sent_batches t2.
Proof.
  induction t1 as [|ev t1 IH]; [reflexivity|].
  destruct ev; simpl; now rewrite ?IH.
Qed.

Lemma stored_batches_app (t1 t2 : list event) :
  stored_batches (t1 ++ t2) = stored_batches t1 ++ stored_batches t2.
Proof.
  induction t1 as [|ev t1 IH]; [reflexivity|].
  destruct ev as [| |batch [|]]; simpl; now rewrite ?IH.
Qed.

(** The loop sends the slices in the order of its indices and stops at the
    first failure. *)
Lemma add_batches_sent (splits : list Document) (indices : list nat)
  (w : world) :
  exists k,
    sent_batches (fst (add_batches splits indices w))
    = firstn k (map (fun i => slice splits i (i + batch_size)) indices).
Proof.
  induction indices as [|i rest IH].
  - exists 0. reflexivity.
  - destruct IH as [k IH]. cbn [add_batches]. run_steps.
    destruct (add_documents w (slice splits i (i + batch_size))) as [[]|e].
    + destruct (add_batches splits rest w) as [trace res].
      exists (S k). cbn [fst] in *. cbn [app sent_batches map firstn].
      now rewrite IH.
    + exists 1. cbn [fst sent_batches map firstn]. now destruct (map _ rest).
Qed.

Lemma add_batches_stored (splits : list Document) (indices : list nat)
  (w : world) :
  (forall batch, add_documents w batch = Return tt) ->
  snd (add_batches splits indices w) = Return tt
  /\ stored_batches (fst (add_batches splits indices w))
     = map (fun i => slice splits i (i + batch_size)) indices.
Proof.
  intros Hok. induction indices as [|i rest [IH1 IH2]].
  - split; reflexivity.
  - cbn [add_batches]. run_steps. rewrite Hok.
    destruct (add_batches splits rest w) as [trace res].
    cbn [fst snd] in *. subst res. split; [reflexivity|].
    cbn [app stored_batches map]. now rewrite IH2.
Qed.

Lemma loop_batches_cover (splits : list Document) :
  List.concat (map (fun i => slice splits i (i + batch_size))
                   (range 0 (List.length splits) batch_size)) = splits.
Proof.
  unfold range.
  rewrite range_slices_cover; [reflexivity | unfold batch_size; lia | lia].
Qed.

Lemma loop_sends_prefix (splits : list Document) (w : world) :
  exists rest,
    List.concat
      (sent_batches
         (fst (add_batches splits
                 (range 0 (List.length splits) batch_size) w)))
    ++ rest = splits.
Proof.
  destruct (add_batches_sent splits
              (range 0 (List.length splits) batch_size) w) as [k ->].
  exists (List.concat
            (skipn k (map (fun i => slice splits i (i + batch_size))
                          (range 0 (List.length splits) batch_size)))).
  rewrite <- concat_app, firstn_skipn. apply loop_batches_cover.
Qed.

Lemma in_firstn {A : Type} (k : nat) (l : list A) (x : A) :
  In x (firstn k l) -> In x l.
Proof.
  intros H. rewrite <- (firstn_skipn k l). apply in_or_app. now left.
Qed.

Lemma loop_batches_bounded (splits : list Document) (w : world)
  (batch : list Document) :
  In batch
     (sent_batches
        (fst (add_batches splits
                (range 0 (List.length splits) batch_size) w))) ->
  1 <= List.length batch <= 100.
Proof.
  destruct (add_batches_sent splits
              (range 0 (List.length splits) batch_size) w) as [k ->].
  intros Hin. apply in_firstn, in_map_iff in Hin.
  destruct Hin as (i & <- & Hi).
  apply range_from_below in Hi.
  apply (slice_length splits i batch_size Hi). unfold batch_size. lia.
Qed.

End BuildFacts.

Section BuildRunFacts.

Import BuildKnowledgeBase.

Lemma build_database_batches (w : world) (batch : list Document) :
  In batch (sent_batches (fst (build_database w))) ->
  1 <= List.length batch <= 100.
Proof.
  unfold build_database. run_steps.
  split_cases; cbv beta iota zeta; cbn [fst snd app sent_batches];
    rewrite ?sent_batches_app; cbn [fst snd app sent_batches];
    rewrite ?app_nil_r; intros Hin; try contradiction;
    match goal with
    | H : add_batches ?s _ w = _ |- _ =>
        apply (loop_batches_bounded s w); rewrite H; exact Hin
    end.
Qed.

Lemma add_batches_no_rmtree (splits : list Document) (indices : list nat)
  (w : world) :
  existsb is_rmtree (fst (add_batches splits indices w)) = false.
Proof.
  induction indices as [|i rest IH]; [reflexivity|].
  cbn [add_batches]. run_steps.
  destruct (add_documents w (slice splits i (i + batch_size))) as [[]|e];
    [|reflexivity].
  destruct (add_batches splits rest w) as [trace res].
  cbn [fst app existsb is_rmtree orb] in *. exact IH.
Qed.

Lemma build_database_rmtree (w : world) :
  existsb is_rmtree (fst (build_database w)) = true ->
  path_exists w DATA_SOURCE_PATH = true
  /\ path_exists w DB_PERSIST_PATH = true.
Proof.
  unfold build_database. run_steps.
  split_cases; cbv beta iota zeta; cbn [fst snd app existsb is_rmtree orb];
    rewrite ?existsb_app; cbn [fst snd app existsb is_rmtree orb];
    rewrite ?orb_false_r;
    try match goal with
        | H : add_batches ?s ?r w = _ |- _ =>
            let N := fresh in
            pose proof (add_batches_no_rmtree s r w) as N;
            rewrite H in N; cbn [fst] in N; rewrite N
        end;
    intros Hin; try discriminate Hin;
    match goal with
    | H : negb (path_exists w DATA_SOURCE_PATH) = false |- _ =>
        apply negb_false_iff in H; split; assumption
    end.
Qed.

Lemma build_database_order (w : world) (txt md splits : list Document) :
  load w (lit "**/*.txt") = Return txt ->
  load w (lit "**/*.md") = Return md ->
  split_documents w (txt ++ md) = Return splits ->
  exists rest,
    List.concat (sent_batches (fst (build_database w))) ++ rest = splits.
Proof.
  unfold build_database. run_steps.
  split_cases; cbv beta iota zeta; cbn [fst snd app sent_batches];
    rewrite ?sent_batches_app; cbn [fst snd app sent_batches];
    rewrite ?app_nil_r; intros Ht Hm Hs;
    try (exists splits; reflexivity);
    match goal with
    | H : add_batches ?s ?r w = _, E : _ = _ :: _,
      T : load w (lit "**/*.txt") = Return ?a,
      M : load w (lit "**/*.md") = Return ?b,
      S : split_documents w _ = Return ?s |- _ =>
        assert (a = txt) by congruence; assert (b = md) by congruence;
        subst a b; rewrite <- E in S; cbn [app] in S;
        assert (s = splits) by congruence; subst s;
        let N := fresh in
        pose proof (loop_sends_prefix splits w) as N;
        rewrite H in N; exact N
    end.
Qed.


Lemma build_database_success (w : world) (txt md splits : list Document) :
  path_exists w DATA_SOURCE_PATH = true ->
  rmtree w DB_PERSIST_PATH = Return tt ->
  load w (lit "**/*.txt") = Return txt ->
  load w (lit "**/*.md") = Return md ->
  txt ++ md <> [] ->
  split_documents w (txt ++ md) = Return splits ->
  embeddings w = Return tt ->
  chroma w = Return tt ->
  (forall batch, add_documents w batch = Return tt) ->
  snd (build_database w) = Return tt
  /\ List.concat (stored_batches (fst (build_database w))) = splits.
Proof.
  intros Hd Hr Ht Hm Hne Hs He Hc Ha.
  destruct (add_batches_stored splits
              (range 0 (List.length splits) batch_size) w Ha) as [A1 A2].
  destruct (add_batches splits (range 0 (List.length splits) batch_size) w)
    as [trace res] eqn:Eb.
  cbn [fst snd] in A1, A2. subst res.
  unfold build_database. run_steps.
  rewrite Hd. next_step.
  destruct (path_exists w DB_PERSIST_PATH); next_step; rewrite ?Hr;
    next_step; rewrite Ht; next_step; rewrite Hm; next_step;
    (destruct (txt ++ md) as [|d l] eqn:E; [contradiction|]);
    next_step; rewrite Hs; next_step; rewrite He; next_step; rewrite Hc;
    next_step; rewrite Eb; next_step;
    cbn [fst snd stored_batches];
    rewrite ?stored_batches_app; cbn [stored_batches];
    rewrite ?app_nil_r, A2; (split; [reflexivity|]);
    apply loop_batches_cover.
Qed.



End BuildRunFacts.

(** X13.  Whatever the world does, every batch that [build_database] hands
    to the vector store holds at least one and at most 100 documents. *)
Theorem build_batches_are_bounded
  (w : BuildKnowledgeBase.world) (batch : list Document) :
  In batch (sent_batches (fst (BuildKnowledgeBase.build_database w))) ->
  1 <= List.length batch <= 100.
Proof. apply build_database_batches. Qed.

Lemma build_batches_are_bounded_witness :
  sent_batches
    (fst (BuildKnowledgeBase.build_database
            (build_world true false (documents 2) [] (documents 250))))
  = [firstn 100 (documents 250);
     firstn 100 (skipn 100 (documents 250));
     skipn 200 (documents 250)]
  /\ 1 <= List.length (skipn 200 (documents 250)) <= 100.
Proof.
  split; [vm_compute; reflexivity|].
  apply (build_batches_are_bounded
           (build_world true false (documents 2) [] (documents 250))
           (skipn 200 (documents 250))).
  vm_compute. do 2 right. left. reflexivity.
Defined.

(** X14.  Given what the loaders and the splitter return, the documents
    that [build_database] hands to the vector store, batch after batch, are
    an initial part of the splitter's output, in its order and without
    repetition, whatever fails on the way. *)
Theorem build_sends_chunks_in_order
  (w : BuildKnowledgeBase.world) (txt md splits : list Document) :
  BuildKnowledgeBase.load w (lit "**/*.txt") = Return txt ->
  BuildKnowledgeBase.load w (lit "**/*.md") = Return md ->
  BuildKnowledgeBase.split_documents w (txt ++ md) = Return splits ->
  exists rest,
    List.concat (sent_batches (fst (BuildKnowledgeBase.build_database w)))
    ++ rest = splits.
Proof. apply build_database_order. Qed.

Lemma build_sends_chunks_in_order_witness :
  exists rest,
    List.concat
      (sent_batches
         (fst (BuildKnowledgeBase.build_database
                 (build_world true true (documents 2) (documents 1)
                    (documents 250)))))
    ++ rest = documents 250.
Proof.
  apply (build_sends_chunks_in_order
           (build_world true true (documents 2) (documents 1)
              (documents 250))
           (documents 2) (documents 1) (documents 250)); reflexivity.
Defined.

(** X15.  When every step succeeds and some document was loaded,
    [build_database] returns normally and the batches it stored, put
    together, are exactly the splitter's output: no chunk is lost,
    repeated or reordered by the batching. *)
Theorem build_stores_every_chunk_once
  (w : BuildKnowledgeBase.world) (txt md splits : list Document) :
  BuildKnowledgeBase.path_exists w BuildKnowledgeBase.DATA_SOURCE_PATH = true ->
  BuildKnowledgeBase.rmtree w BuildKnowledgeBase.DB_PERSIST_PATH = Return tt ->
  BuildKnowledgeBase.load w (lit "**/*.txt") = Return txt ->
  BuildKnowledgeBase.load w (lit "**/*.md") = Return md ->
  txt ++ md <> [] ->
  BuildKnowledgeBase.split_documents w (txt ++ md) = Return splits ->
  BuildKnowledgeBase.embeddings w = Return tt ->
  BuildKnowledgeBase.chroma w = Return tt ->
  (forall batch, BuildKnowledgeBase.add_documents w batch = Return tt) ->
  snd (BuildKnowledgeBase.build_database w) = Return tt
  /\ List.concat
       (stored_batches (fst (BuildKnowledgeBase.build_database w)))
     = splits.
Proof. apply build_database_success. Qed.

Lemma build_stores_every_chunk_once_witness :
  snd (BuildKnowledgeBase.build_database
         (build_world true true (documents 2) (documents 1) (documents 250)))
  = Return tt
  /\ List.concat
       (stored_batches
          (fst (BuildKnowledgeBase.build_database
                  (build_world true true (documents 2) (documents 1)
                     (documents 250)))))
     = documents 250.
Proof.
  apply (build_stores_every_chunk_once
           (build_world true true (documents 2) (documents 1)
              (documents 250))
           (documents 2) (documents 1) (documents 250));
    try reflexivity.
  vm_compute. discriminate.
Defined.

(** X16.  [build_database] removes a directory tree only when both the data
    directory and the old database directory exist; without the data
    directory the old database is left alone. *)
Theorem build_removes_database_only_with_data
  (w : BuildKnowledgeBase.world) :
  existsb is_rmtree (fst (BuildKnowledgeBase.build_database w)) = true ->
  BuildKnowledgeBase.path_exists w BuildKnowledgeBase.DATA_SOURCE_PATH = true
  /\ BuildKnowledgeBase.path_exists w BuildKnowledgeBase.DB_PERSIST_PATH
     = true.
Proof. apply build_database_rmtree. Qed.

Lemma build_removes_database_only_with_data_witness :
  BuildKnowledgeBase.path_exists
    (build_world true true (documents 2) [] (documents 3))
    BuildKnowledgeBase.DATA_SOURCE_PATH = true
  /\ BuildKnowledgeBase.path_exists
       (build_world true true (documents 2) [] (documents 3))
       BuildKnowledgeBase.DB_PERSIST_PATH = true.
Proof.
  apply (build_removes_database_only_with_data
           (build_world true true (documents 2) [] (documents 3))).
  reflexivity.
Defined.



(** ** Further properties of the RAG agent *)

Section MoreRAGFacts.

Import RAGAgent.

Lemma context_list_length (docs : list Document) (i : nat) :
  List.length (context_list i docs) = List.length docs.
Proof.
  revert i; induction docs as [|d docs IH]; intros i; simpl;
    [reflexivity | now rewrite IH].
Qed.

Lemma context_list_nth (docs : list Document) (i j : nat) (d : Document) :
  nth_error docs j = Some d ->
  nth_error (context_list i docs) j = Some (context_entry (i + j + 1) d).
Proof.
  revert i j; induction docs as [|d0 docs IH]; intros i j.
  - destruct j; discriminate.
  - destruct j as [|j]; cbn [nth_error context_list].
    + intros [= ->]. now rewrite Nat.add_0_r.
    + intros H. rewrite (IH (S i) j H).
      now replace (S i + j + 1) with (i + S j + 1) by lia.
Qed.

Lemma join_nonempty (sep p : str) (rest : list str) :
  p <> [] -> join sep (p :: rest) <> [].
Proof.
  intros Hp. destruct p as [|c p]; [contradiction|].
  destruct rest; discriminate.
Qed.

Lemma retrieve_context_available (self : RAGAgent) (vs : Chroma)
  (query : str) (k : Z) (w : world) (d : Document) (ds : list Document) :
  vector_store self = Some vs -> truth vs = true ->
  similarity_search vs query k = Return (d :: ds) ->
  _retrieve_context self query k w
  = ([], Return (join [10; 10]%N (context_list 0 (d :: ds)))).
Proof.
  intros Hv Ht Hs. unfold _retrieve_context. rewrite Hv, Ht. run_effects.
  now rewrite Hs.
Qed.

Lemma context_nonempty (d : Document) (ds : list Document) :
  falsy (join [10; 10]%N (context_list 0 (d :: ds))) = false.
Proof.
  destruct (join [10; 10]%N (context_list 0 (d :: ds))) eqn:E;
    [|reflexivity].
  exfalso. revert E. apply join_nonempty. discriminate.
Qed.

Lemma augment_last_snoc (pre : list message) (m : message) (t : str) :
  augment_last (pre ++ [m]) t
  = if str_eqb (role m) (lit "user") then
      match msg_content m with
      | ContentStr _ =>
          pre ++ [{| role := role m; msg_content := ContentStr t |}]
      | ContentList items =>
          pre ++ [{| role := role m;
                     msg_content := ContentList (set_first_text items t) |}]
      | ContentOther => pre ++ [m]
      end
    else pre ++ [m].
Proof.
  unfold augment_last. rewrite rev_app_distr. cbn [rev app].
  rewrite rev_involutive.
  destruct (str_eqb (role m) (lit "user")); [|reflexivity].
  destruct (msg_content m); reflexivity.
Qed.

Lemma snoc_cases {A : Type} (l : list A) :
  l = [] \/ exists pre x, l = pre ++ [x].
Proof.
  destruct (rev l) as [|x r] eqn:E.
  - left. apply (f_equal (@rev A)) in E. now rewrite rev_involutive in E.
  - right. exists (rev r), x.
    apply (f_equal (@rev A)) in E. now rewrite rev_involutive in E.
Qed.

Lemma set_first_text_cons (item : dict) (rest : list dict) (t : str) :
  set_first_text (item :: rest) t
  = if is_text_item item
    then dict_set item "text" (PyStr t) :: rest
    else item :: set_first_text rest t.
Proof.
  unfold is_text_item. cbn [set_first_text].
  destruct (dict_get item "type") as [[| | |s|]|]; try reflexivity.
Qed.

Lemma dict_get_set_same (d : dict) (key : string) (v : pyval) :
  dict_get (dict_set d key v) key = Some v.
Proof.
  induction d as [|[k v0] d IH]; simpl.
  - now rewrite String.eqb_refl.
  - destruct (String.eqb k key) eqn:E; simpl; rewrite E; [reflexivity|].
    exact IH.
Qed.

Lemma dict_get_set_other (d : dict) (key other : string) (v : pyval) :
  other <> key ->
  dict_get (dict_set d key v) other = dict_get d other.
Proof.
  intros Hne. induction d as [|[k v0] d IH]; simpl.
  - destruct (String.eqb_spec key other); [congruence | reflexivity].
  - destruct (String.eqb_spec k key) as [->|]; simpl.
    + destruct (String.eqb_spec key other); [congruence | reflexivity].
    + now rewrite IH.
Qed.

Lemma set_first_text_none (items : list dict) (t : str) :
  existsb is_text_item items = false -> set_first_text items t = items.
Proof.
  induction items as [|item rest IH]; [reflexivity|].
  cbn [existsb]. intros H. apply orb_false_iff in H. destruct H as [H1 H2].
  rewrite set_first_text_cons, H1. now rewrite IH.
Qed.

Lemma set_first_text_first (pre post : list dict) (item : dict) (t : str) :
  existsb is_text_item pre = false -> is_text_item item = true ->
  set_first_text (pre ++ item :: post) t
  = pre ++ dict_set item "text" (PyStr t) :: post.
Proof.
  intros Hpre Hitem. induction pre as [|p pre IH]; cbn [app].
  - now rewrite set_first_text_cons, Hitem.
  - cbn [existsb] in Hpre. apply orb_false_iff in Hpre.
    destruct Hpre as [H1 H2].
    rewrite set_first_text_cons, H1. now rewrite IH.
Qed.

End MoreRAGFacts.

(** X18.  The context lists one entry per retrieved document, in the order
    of the search result, and the entry of the document at position [j]
    (from 0) is ["资料"], the number [j + 1], [": "] and the document's
    text. *)
Theorem context_entries_are_numbered_from_one (docs : list Document) :
  List.length (RAGAgent.context_list 0 docs) = List.length docs
  /\ forall j d,
       nth_error docs j = Some d ->
       nth_error (RAGAgent.context_list 0 docs) j
       = Some (context_entry (j + 1) d).
Proof.
  split; [apply context_list_length|].
  intros j d H. apply (context_list_nth docs 0 j d H).
Qed.

Lemma context_entries_are_numbered_from_one_witness :
  nth_error
    (RAGAgent.context_list 0
       [{| page_content := lit "Monday: algebra" |};
        {| page_content := lit "Tuesday: physics" |}]) 1
  = Some ([36164; 26009]%N ++ lit "2: Tuesday: physics").
Proof.
  destruct (context_entries_are_numbered_from_one
              [{| page_content := lit "Monday: algebra" |};
               {| page_content := lit "Tuesday: physics" |}]) as [_ H].
  apply (H 1%nat {| page_content := lit "Tuesday: physics" |}).
  reflexivity.
Defined.

(** X19.  When the store is there and the search finds at least one
    document, [_retrieve_context] returns the entries joined by blank
    lines, which is never the empty string, and logs nothing. *)
Theorem found_documents_give_nonempty_context
  (self : RAGAgent.RAGAgent) (vs : Chroma) (query : str) (k : Z) (w : world)
  (d : Document) (ds : list Document) :
  RAGAgent.vector_store self = Some vs -> truth vs = true ->
  similarity_search vs query k = Return (d :: ds) ->
  RAGAgent._retrieve_context self query k w
  = ([], Return (RAGAgent.join [10; 10]%N
                   (RAGAgent.context_list 0 (d :: ds))))
  /\ falsy (RAGAgent.join [10; 10]%N (RAGAgent.context_list 0 (d :: ds)))
     = false.
Proof.
  intros Hv Ht Hs. split.
  - now apply (retrieve_context_available self vs).
  - apply context_nonempty.
Qed.

Lemma found_documents_give_nonempty_context_witness :
  RAGAgent._retrieve_context informed_agent (lit "when is algebra") 3
    quiet_world
  = ([], Return (RAGAgent.join [10; 10]%N
                   (RAGAgent.context_list 0
                      [{| page_content := lit "Monday: algebra" |};
                       {| page_content := lit "Tuesday: physics" |}])))
  /\ falsy (RAGAgent.join [10; 10]%N
              (RAGAgent.context_list 0
                 [{| page_content := lit "Monday: algebra" |};
                  {| page_content := lit "Tuesday: physics" |}])) = false.
Proof.
  apply (found_documents_give_nonempty_context informed_agent
           {| truth := true;
              similarity_search := fun _ _ =>
                Return [{| page_content := lit "Monday: algebra" |};
                        {| page_content := lit "Tuesday: physics" |}] |}
           (lit "when is algebra") 3 quiet_world);
    reflexivity.
Defined.

(** X20.  Rewriting the last message keeps the number of messages, the role
    of every message, and every message but the last as they were. *)
Theorem augmentation_touches_only_last_message
  (messages : list RAGAgent.message) (new_text : str) :
  List.length (RAGAgent.augment_last messages new_text)
  = List.length messages
  /\ map RAGAgent.role (RAGAgent.augment_last messages new_text)
     = map RAGAgent.role messages
  /\ removelast (RAGAgent.augment_last messages new_text)
     = removelast messages.
Proof.
  destruct (snoc_cases messages) as [-> | (pre & m & ->)];
    [repeat split|].
  rewrite augment_last_snoc.
  destruct (str_eqb (RAGAgent.role m) (lit "user")); [|repeat split].
  destruct (RAGAgent.msg_content m);
    rewrite ?length_app, ?map_app, ?removelast_last; repeat split.
Qed.

(** X21.  In a multimodal last message the first item of type ['text'], and
    only that one, gets the new text under ['text'], keeps its ['type'] and
    its place; the items before and after it are untouched. *)
Theorem first_text_item_is_rewritten
  (pre post : list RAGAgent.dict) (item : RAGAgent.dict) (new_text : str) :
  existsb is_text_item pre = false -> is_text_item item = true ->
  RAGAgent.set_first_text (pre ++ item :: post) new_text
  = pre ++ RAGAgent.dict_set item "text" (PyStr new_text) :: post
  /\ RAGAgent.dict_get
       (RAGAgent.dict_set item "text" (PyStr new_text)) "text"
     = Some (PyStr new_text)
  /\ is_text_item (RAGAgent.dict_set item "text" (PyStr new_text)) = true.
Proof.
  intros Hpre Hitem. split; [|split].
  - now apply set_first_text_first.
  - apply dict_get_set_same.
  - unfold is_text_item in *.
    rewrite dict_get_set_other by discriminate. exact Hitem.
Qed.

Lemma first_text_item_is_rewritten_witness :
  RAGAgent.set_first_text
    ([("type"%string, PyStr (lit "image_url"))]
       :: [("type"%string, PyStr (lit "text"));
           ("text"%string, PyStr (lit "old"))]
       :: [[("type"%string, PyStr (lit "text"));
            ("text"%string, PyStr (lit "second"))]])
    (lit "new")
  = [("type"%string, PyStr (lit "image_url"))]
      :: [("type"%string, PyStr (lit "text"));
          ("text"%string, PyStr (lit "new"))]
      :: [[("type"%string, PyStr (lit "text"));
           ("text"%string, PyStr (lit "second"))]].
Proof.
  apply (first_text_item_is_rewritten
           [[("type"%string, PyStr (lit "image_url"))]]
           [[("type"%string, PyStr (lit "text"));
             ("text"%string, PyStr (lit "second"))]]
           [("type"%string, PyStr (lit "text"));
            ("text"%string, PyStr (lit "old"))]
           (lit "new")); reflexivity.
Defined.

(** X22.  When the last message is the user's and multimodal but holds no
    item of type ['text'], rewriting it changes nothing: the retrieved
    context is dropped without a trace. *)
Theorem multimodal_message_without_text_is_unchanged
  (pre : list RAGAgent.message) (m : RAGAgent.message)
  (items : list RAGAgent.dict) (new_text : str) :
  RAGAgent.msg_content m = RAGAgent.ContentList items ->
  existsb is_text_item items = false ->
  RAGAgent.augment_last (pre ++ [m]) new_text = pre ++ [m].
Proof.
  intros Hc Hnone. rewrite augment_last_snoc.
  destruct (str_eqb (RAGAgent.role m) (lit "user")); [|reflexivity].
  rewrite Hc, (set_first_text_none items new_text Hnone).
  destruct m as [r c]. cbn in *. now subst c.
Qed.

Lemma multimodal_message_without_text_is_unchanged_witness :
  RAGAgent.augment_last
    [{| RAGAgent.role := lit "user";
        RAGAgent.msg_content :=
          RAGAgent.ContentList
            [[("type"%string, PyStr (lit "image_url"))]] |}]
    (lit "new")
  = [{| RAGAgent.role := lit "user";
        RAGAgent.msg_content :=
          RAGAgent.ContentList
            [[("type"%string, PyStr (lit "image_url"))]] |}].
Proof.
  apply (multimodal_message_without_text_is_unchanged []
           {| RAGAgent.role := lit "user";
              RAGAgent.msg_content :=
                RAGAgent.ContentList
                  [[("type"%string, PyStr (lit "image_url"))]] |}
           [[("type"%string, PyStr (lit "image_url"))]] (lit "new"));
    reflexivity.
Defined.

Section ToMessagesFacts.

Import RAGAgent.

Variable BatchInput : Type.
Variable super_to_messages : BatchInput -> M (list message).
Variable to_text_prompt : BatchInput -> M str.

Lemma to_messages_with_context (self : RAGAgent) (vs : Chroma)
  (input_data : BatchInput) (w : world) (t1 t2 : list event)
  (pre : list message) (m : message) (old user_text day : str)
  (d : Document) (ds : list Document) :
  super_to_messages input_data w = (t1, Return (pre ++ [m])) ->
  str_eqb (role m) (lit "user") = true ->
  msg_content m = ContentStr old ->
  to_text_prompt input_data w = (t2, Return user_text) ->
  user_text <> [] ->
  nth_error week_days (snd (datetime_now w)) = Some day ->
  vector_store self = Some vs -> truth vs = true ->
  similarity_search vs user_text 3 = Return (d :: ds) ->
  snd (_to_messages BatchInput super_to_messages to_text_prompt self
         input_data w)
  = Return
      (pre ++ [{| role := role m;
                  msg_content :=
                    ContentStr
                      (augmented (fst (datetime_now w) ++ lit " " ++ day)
                         (join [10; 10]%N (context_list 0 (d :: ds)))
                         user_text) |}]).
Proof.
  intros H1 Hr Hc H2 Hne Hd Hv Ht Hs. unfold _to_messages.
  unfold bind at 1. rewrite H1.
  unfold bind at 1. rewrite H2.
  unfold bind at 1. unfold ask at 1.
  unfold bind at 1. rewrite Hd. unfold ret at 1.
  assert (Hu : negb (falsy user_text) && store_truthy self = true).
  { unfold store_truthy. rewrite Hv, Ht.
    destruct user_text; [contradiction | reflexivity]. }
  rewrite Hu.
  unfold bind at 1, logger, emit.
  unfold bind at 1.
  rewrite (retrieve_context_available self vs user_text 3 w d ds Hv Ht Hs).
  rewrite context_nonempty. cbn [negb].
  unfold bind, ret. cbn [snd].
  rewrite augment_last_snoc, Hr, Hc. reflexivity.
Qed.

Lemma to_messages_empty_text (self : RAGAgent) (input_data : BatchInput)
  (w : world) (t1 t2 : list event) (messages : list message) :
  super_to_messages input_data w = (t1, Return messages) ->
  to_text_prompt input_data w = (t2, Return []) ->
  (snd (datetime_now w) < 7)%nat ->
  _to_messages BatchInput super_to_messages to_text_prompt self input_data w
  = (t1 ++ t2, Return messages).
Proof.
  intros H1 H2 Hd. unfold _to_messages.
  unfold bind at 1. rewrite H1.
  unfold bind at 1. rewrite H2.
  unfold bind at 1. unfold ask at 1.
  unfold bind at 1.
  destruct (nth_error week_days (snd (datetime_now w))) as [day|] eqn:E.
  2:{ apply nth_error_None in E. simpl in E. lia. }
  unfold ret. cbn [falsy negb andb]. now rewrite !app_nil_r.
Qed.

End ToMessagesFacts.

(** X23.  When the base class ends its message list with a user message
    whose content is a string, the user's text is not empty and the search
    finds documents, [_to_messages] returns the base messages with that last
    message's content replaced by the prompt made of the date line, the
    numbered context and the user's text; the messages before it are kept
    as they are. *)
Theorem found_context_replaces_last_user_message
  (BatchInput : Type)
  (super_to_messages : BatchInput -> M (list RAGAgent.message))
  (_to_text_prompt : BatchInput -> M str)
  (self : RAGAgent.RAGAgent) (vs : Chroma)
  (input_data : BatchInput) (w : world) (t1 t2 : list event)
  (pre : list RAGAgent.message) (m : RAGAgent.message)
  (old user_text day : str) (d : Document) (ds : list Document) :
  super_to_messages input_data w = (t1, Return (pre ++ [m])) ->
  str_eqb (RAGAgent.role m) (lit "user") = true ->
  RAGAgent.msg_content m = RAGAgent.ContentStr old ->
  _to_text_prompt input_data w = (t2, Return user_text) ->
  user_text <> [] ->
  nth_error RAGAgent.week_days (snd (datetime_now w)) = Some day ->
  RAGAgent.vector_store self = Some vs -> truth vs = true ->
  similarity_search vs user_text 3 = Return (d :: ds) ->
  snd (RAGAgent._to_messages BatchInput super_to_messages _to_text_prompt
         self input_data w)
  = Return
      (pre ++ [{| RAGAgent.role := RAGAgent.role m;
                  RAGAgent.msg_content :=
                    RAGAgent.ContentStr
                      (RAGAgent.augmented
                         (fst (datetime_now w) ++ lit " " ++ day)
                         (RAGAgent.join [10; 10]%N
                            (RAGAgent.context_list 0 (d :: ds)))
                         user_text) |}]).
Proof. apply to_messages_with_context. Qed.

Lemma found_context_replaces_last_user_message_witness :
  snd (RAGAgent._to_messages str base_messages base_text_prompt
         informed_agent (lit "when is algebra") quiet_world)
  = Return
      [{| RAGAgent.role := lit "user";
          RAGAgent.msg_content :=
            RAGAgent.ContentStr
              (RAGAgent.augmented
                 (lit "2026-03-02" ++ lit " " ++ [21608; 19968]%N)
                 (RAGAgent.join [10; 10]%N
                    (RAGAgent.context_list 0
                       [{| page_content := lit "Monday: algebra" |};
                        {| page_content := lit "Tuesday: physics" |}]))
                 (lit "when is algebra")) |}].
Proof.
  apply (found_context_replaces_last_user_message str base_messages
           base_text_prompt informed_agent
           {| truth := true;
              similarity_search := fun _ _ =>
                Return [{| page_content := lit "Monday: algebra" |};
                        {| page_content := lit "Tuesday: physics" |}] |}
           (lit "when is algebra") quiet_world [] [] []
           {| RAGAgent.role := lit "user";
              RAGAgent.msg_content :=
                RAGAgent.ContentStr (lit "when is algebra") |}
           (lit "when is algebra") (lit "when is algebra")
           [21608; 19968]%N);
    try reflexivity.
  discriminate.
Defined.

(** X24.  When the user's text is empty, [_to_messages] returns the message
    list of the base class as it is, whatever the vector store holds, and
    logs nothing of its own. *)
Theorem empty_user_text_skips_retrieval
  (BatchInput : Type)
  (super_to_messages : BatchInput -> M (list RAGAgent.message))
  (_to_text_prompt : BatchInput -> M str)
  (self : RAGAgent.RAGAgent) (input_data : BatchInput) (w : world)
  (t1 t2 : list event) (messages : list RAGAgent.message) :
  super_to_messages input_data w = (t1, Return messages) ->
  _to_text_prompt input_data w = (t2, Return []) ->
  (snd (datetime_now w) < 7)%nat ->
  RAGAgent._to_messages BatchInput super_to_messages _to_text_prompt self
    input_data w
  = (t1 ++ t2, Return messages).
Proof. apply to_messages_empty_text. Qed.

Lemma empty_user_text_skips_retrieval_witness :
  RAGAgent._to_messages str base_messages base_text_prompt informed_agent []
    quiet_world
  = ([], Return [{| RAGAgent.role := lit "user";
                    RAGAgent.msg_content := RAGAgent.ContentStr [] |}]).
Proof.
  apply (empty_user_text_skips_retrieval str base_messages base_text_prompt
           informed_agent [] quiet_world [] []
           [{| RAGAgent.role := lit "user";
               RAGAgent.msg_content := RAGAgent.ContentStr [] |}]);
    try reflexivity.
  simpl. lia.
Defined.

(** X25.  The text of a request is the engine's input with characters left
    out: the cleaning never adds, changes or reorders a character. *)
Theorem request_text_only_deletes
  (self : SiliconFlowTTS.SiliconFlowTTS) (text : str)
  (file_name_no_ext : option str) (w : world) (t : str) :
  In t (payload_texts
          (fst (SiliconFlowTTS.generate_audio self (Some text)
                  file_name_no_ext w))) ->
  subseq t text.
Proof.
  intros Hin.
  rewrite (generate_audio_payload self text file_name_no_ext w t Hin).
  unfold SiliconFlowTTS.cleaned_text, replace_empty, re_sub_url,
    delete_matches.
  repeat (eapply subseq_trans; [apply delete_from_subseq|]).
  apply subseq_refl.
Qed.

Lemma request_text_only_deletes_witness :
  subseq (lit "see ( ) now") (lit "see (http://x.com/y ) now").
Proof.
  apply (request_text_only_deletes example_engine
           (lit "see (http://x.com/y ) now") None quiet_world
           (lit "see ( ) now")).
  vm_compute. left. reflexivity.
Defined.
